(** * Qibo: the PyTorch backend adapter and gate fusion

    A shallow embedding of [src/qibo/backends/pytorch.py] (the tensor
    adapter: [cast], [samples_to_decimal], [samples_to_binary],
    [calculate_norm_density_matrix]) and of the gate algebra exercised by
    [src/qibo/tests/test_fusion.py]. *)

From Stdlib Require Import String ZArith List Bool Lia Ring Setoid Morphisms.
Import ListNotations.
Local Open Scope string_scope.
Local Open Scope list_scope.
Local Open Scope Z_scope.

(** ** Python exceptions and fallible results *)

Inductive exn : Type :=
| KeyError
| RuntimeError
| IndexError
| ValueError
| NotImplementedError.

Inductive result (A : Type) : Type :=
| Ok (a : A)
| Raise (e : exn).
Arguments Ok {A} a.
Arguments Raise {A} e.

Definition bind {A B : Type} (r : result A) (k : A -> result B) : result B :=
  match r with
  | Ok a => k a
  | Raise e => Raise e
  end.

Notation "'let!' x ':=' r 'in' k" := (bind r (fun x => k))
  (at level 10, x name, r at level 100, k at level 200).

(** ** torch dtypes and [torch_dtype_dict] *)

Inductive torch_dtype : Type :=
| t_bool | t_uint8 | t_int8 | t_int16 | t_int32 | t_int64
| t_float16 | t_float32 | t_float64
| t_complex64 | t_complex128.

Definition dtype_eqb (a b : torch_dtype) : bool :=
  match a, b with
  | t_bool, t_bool | t_uint8, t_uint8 | t_int8, t_int8 | t_int16, t_int16
  | t_int32, t_int32 | t_int64, t_int64
  | t_float16, t_float16 | t_float32, t_float32 | t_float64, t_float64
  | t_complex64, t_complex64 | t_complex128, t_complex128 => true
  | _, _ => false
  end.

(** The module-level dictionary of pytorch.py, lines 13-23, in source order. *)
Definition torch_dtype_dict : list (string * torch_dtype) :=
  [ ("int", t_int32);
    ("float", t_float32);
    ("complex", t_complex64);
    ("int32", t_int32);
    ("int64", t_int64);
    ("float32", t_float32);
    ("float64", t_float64);
    ("complex64", t_complex64);
    ("complex128", t_complex128) ].

(** [d[key]]: a missing key raises [KeyError]. *)
Fixpoint getitem {V : Type} (d : list (string * V)) (key : string) : result V :=
  match d with
  | [] => Raise KeyError
  | (k, v) :: rest => if String.eqb k key then Ok v else getitem rest key
  end.

(** The [dtype] argument of [cast]:
    [Union[str, torch.dtype, np.dtype, type]] or [None]. *)
Inductive dtype_arg : Type :=
| DNone                          (* dtype=None *)
| DPyType (name : string)        (* a Python class, e.g. int or np.int32; [name] is its __name__ *)
| DTorch (d : torch_dtype)       (* a torch.dtype instance *)
| DStr (s : string).             (* a str or an np.dtype instance; [s] is str(dtype) *)

(** ** Tensors

    A tensor is its dtype, its shape and its entries in row-major order.
    The entry type is a parameter: the adapter never looks inside an
    entry, it only hands tensors to torch. *)

Record Tensor (A : Type) : Type := mkTensor {
  t_dtype : torch_dtype;
  t_shape : list nat;
  t_data : list A
}.
Arguments mkTensor {A} _ _ _.
Arguments t_dtype {A} _.
Arguments t_shape {A} _.
Arguments t_data {A} _.

Definition shape_eqb (s1 s2 : list nat) : bool :=
  if list_eq_dec Nat.eq_dec s1 s2 then true else false.

(** torch's type promotion, as used by [torch.stack] on tensors of
    different dtypes: the category (bool < integer < float < complex) is
    the larger one and, inside a category, the wider type wins. *)
Definition dtype_category (d : torch_dtype) : nat :=
  match d with
  | t_bool => 0
  | t_uint8 | t_int8 | t_int16 | t_int32 | t_int64 => 1
  | t_float16 | t_float32 | t_float64 => 2
  | t_complex64 | t_complex128 => 3
  end%nat.

Definition int_rank (d : torch_dtype) : nat :=
  match d with
  | t_int8 => 1 | t_int16 => 2 | t_int32 => 3 | t_int64 => 4 | _ => 0
  end%nat.

Definition float_rank (d : torch_dtype) : nat :=
  match d with
  | t_float16 => 1 | t_float32 | t_complex64 => 2
  | t_float64 | t_complex128 => 3 | _ => 0
  end%nat.

Definition promote_types (a b : torch_dtype) : torch_dtype :=
  if dtype_eqb a b then a else
  let hi := Nat.max (dtype_category a) (dtype_category b) in
  let fr := Nat.max (float_rank a) (float_rank b) in
  match hi with
  | 3%nat => if Nat.leb fr 2 then t_complex64 else t_complex128
  | 2%nat => match fr with 1%nat => t_float16 | 2%nat => t_float32 | _ => t_float64 end
  | _ =>
    match a, b with
    | t_bool, x | x, t_bool => x
    | t_uint8, x | x, t_uint8 =>
        match x with t_int8 => t_int16 | _ => x end
    | _, _ => if Nat.leb (int_rank a) (int_rank b) then b else a
    end
  end.

(** What [cast] can be handed: a tensor, a Python list (each element a
    tensor or something else), or anything else torch.tensor accepts (a
    numpy array, a number), of type [O]. *)
Inductive cast_input (A O : Type) : Type :=
| XTensor (t : Tensor A)
| XList (l : list (Tensor A + O))
| XOther (o : O).
Arguments XTensor {A O} t.
Arguments XList {A O} l.
Arguments XOther {A O} o.

Definition is_Tensor {A O : Type} (row : Tensor A + O) : bool :=
  match row with inl _ => true | inr _ => false end.

Fixpoint tensors_of {A O : Type} (l : list (Tensor A + O)) : list (Tensor A) :=
  match l with
  | [] => []
  | inl t :: rest => t :: tensors_of rest
  | inr _ :: rest => tensors_of rest
  end.

(** The [order] argument of the norm functions: a string such as "nuc" or
    "fro", a number, or infinity. *)
Inductive norm_order : Type :=
| OrdStr (s : string)
| OrdNum (p : Z)
| OrdInf.

(** Python's [==] on two orders. *)
Definition order_eq (a b : norm_order) : bool :=
  match a, b with
  | OrdStr s, OrdStr s' => String.eqb s s'
  | OrdNum p, OrdNum p' => Z.eqb p p'
  | OrdInf, OrdInf => true
  | _, _ => false
  end.

(** ** The backend *)

Section PyTorchBackend.

Context {A O : Type}.

(** Library behaviour taken as parameters:
    - [convert src dst a]: the entry [a] of a tensor of dtype [src]
      converted to dtype [dst];
    - [tensor_contents x dst]: the shape and entries torch.tensor builds
      from a non-tensor input for dtype [dst], or the error it raises. *)
Variable convert : torch_dtype -> torch_dtype -> A -> A.
Variable tensor_contents :
  cast_input A O -> torch_dtype -> result (list nat * list A).

(** [self.dtype] after [__init__] (line 56): a torch dtype. *)
Variable self_dtype : torch_dtype.

(** [x.to(dtype)]: the tensor itself when the dtype already agrees. *)
Definition to (x : Tensor A) (dtype : torch_dtype) : Tensor A :=
  if dtype_eqb (t_dtype x) dtype then x
  else mkTensor dtype (t_shape x) (map (convert (t_dtype x) dtype) (t_data x)).

(** [torch.tensor(x, dtype=dtype)]. *)
Definition torch_tensor (x : cast_input A O) (dtype : torch_dtype)
  : result (Tensor A) :=
  let! c := tensor_contents x dtype in
  Ok (mkTensor dtype (fst c) (snd c)).

(** [torch.stack(x)]: needs a non-empty list of tensors of one shape;
    the result has the promoted dtype of the elements. *)
Definition result_type (d0 : torch_dtype) (l : list (Tensor A)) : torch_dtype :=
  fold_left (fun d t => promote_types d (t_dtype t)) l d0.

Definition stack (l : list (Tensor A)) : result (Tensor A) :=
  match l with
  | [] => Raise RuntimeError
  | t0 :: rest =>
    if forallb (fun t => shape_eqb (t_shape t) (t_shape t0)) rest then
      let d := result_type (t_dtype t0) rest in
      Ok (mkTensor d (length l :: t_shape t0)
                   (flat_map (fun t => t_data (to t d)) l))
    else Raise RuntimeError
  end.

(** [x.clone()]: a copy with the same dtype, shape and entries. *)
Definition clone (x : Tensor A) : Tensor A := x.

(** Lines 85-90 of [cast]. *)
Definition resolve_dtype (dtype : dtype_arg) : result torch_dtype :=
  match dtype with
  | DNone => Ok self_dtype
  | DPyType name => getitem torch_dtype_dict name
  | DTorch d => Ok d
  | DStr s => getitem torch_dtype_dict s
  end.

(** [PyTorchBackend.cast], lines 65-102. *)
Definition cast (x : cast_input A O) (dtype : dtype_arg) (copy : bool)
  : result (Tensor A) :=
  let! dtype := resolve_dtype dtype in
  let! x :=
    match x with
    | XTensor t => Ok (to t dtype)
    | XList l =>
        if forallb is_Tensor l then stack (tensors_of l)
        else torch_tensor x dtype
    | XOther _ => torch_tensor x dtype
    end in
  if copy then Ok (clone x) else Ok x.

(** Entry arithmetic and [torch.norm], again library behaviour. *)
Variable zero : A.
Variable add : A -> A -> A.
Variable torch_norm : Tensor A -> norm_order -> result (Tensor A).

(** The main diagonal of a row-major (r, c) matrix. *)
Definition diagonal (r c : nat) (data : list A) : list A :=
  map (fun i => nth (i * c + i) data zero) (seq 0 (Nat.min r c)).

(** [torch.trace(x)]: the sum of the diagonal of a 2-D tensor, as a
    0-dimensional tensor. *)
Definition trace (x : Tensor A) : result (Tensor A) :=
  match t_shape x with
  | [r; c] =>
      Ok (mkTensor (t_dtype x) [] [fold_left add (diagonal r c (t_data x)) zero])
  | _ => Raise RuntimeError
  end.

(** [PyTorchBackend.calculate_norm_density_matrix], lines 159-163. *)
Definition calculate_norm_density_matrix
    (state : cast_input A O) (order : norm_order) : result (Tensor A) :=
  let! state := cast state DNone false in
  if order_eq order (OrdStr "nuc") then trace state
  else torch_norm state order.

End PyTorchBackend.

(** ** Integer tensors: the instance used by the sampling functions

    Entries are integers; a value stored in an integer dtype wraps around
    to the dtype's range. *)

Definition wrap (bits : Z) (z : Z) : Z :=
  (z + 2 ^ (bits - 1)) mod 2 ^ bits - 2 ^ (bits - 1).

(** The integer [z] as stored in a tensor of dtype [d]. Floating dtypes
    keep the integer (they do not occur in the sampling functions). *)
Definition fit (d : torch_dtype) (z : Z) : Z :=
  match d with
  | t_bool => if z =? 0 then 0 else 1
  | t_uint8 => z mod 256
  | t_int8 => wrap 8 z
  | t_int16 => wrap 16 z
  | t_int32 => wrap 32 z
  | t_int64 => wrap 64 z
  | _ => z
  end.

Definition convert_Z (src dst : torch_dtype) (z : Z) : Z := fit dst z.

(** A numpy integer array (or a nested list of Python ints, whose shape is
    its nesting). *)
Record ndarray : Type := mkArray {
  a_shape : list nat;
  a_data : list Z
}.

Definition contents_of (dst : torch_dtype) (row : Tensor Z + ndarray)
  : list nat * list Z :=
  match row with
  | inl t => (t_shape t, map (fit dst) (t_data t))
  | inr a => (a_shape a, map (fit dst) (a_data a))
  end.

(** torch.tensor on integer data: an array keeps its shape; a list adds a
    leading dimension and needs elements of one shape. *)
Definition tensor_contents_Z (x : cast_input Z ndarray) (dst : torch_dtype)
  : result (list nat * list Z) :=
  match x with
  | XTensor t => Ok (contents_of dst (inl t))
  | XOther a => Ok (contents_of dst (inr a))
  | XList [] => Ok ([0%nat], [])
  | XList (r0 :: rest) =>
      let s0 := fst (contents_of dst r0) in
      if forallb (fun r => shape_eqb (fst (contents_of dst r)) s0) rest
      then Ok (S (length rest) :: s0,
               flat_map (fun r => snd (contents_of dst r)) (r0 :: rest))
      else Raise ValueError
  end.

Definition Zsum (l : list Z) : Z := fold_right Z.add 0 l.

(** [torch.arange(start, stop, step, dtype=dtype)] for [step <> 0]. *)
Definition arange (start stop step : Z) (dtype : torch_dtype) : Tensor Z :=
  let n := if 0 <? step then (stop - start + step - 1) / step
           else (start - stop - step - 1) / (- step) in
  mkTensor dtype [Z.to_nat n]
    (map (fun i => fit dtype (start + Z.of_nat i * step)) (seq 0 (Z.to_nat n))).

(** [base ** t] for a Python int [base] and an integer tensor [t] of
    non-negative exponents: the dtype of [t] is kept. *)
Definition rpow (base : Z) (t : Tensor Z) : Tensor Z :=
  mkTensor (t_dtype t) (t_shape t) (map (fun e => fit (t_dtype t) (base ^ e)) (t_data t)).

(** [t.unsqueeze(dim)] for [0 <= dim]. *)
Definition unsqueeze (t : Tensor Z) (dim : nat) : result (Tensor Z) :=
  if Nat.leb dim (length (t_shape t)) then
    Ok (mkTensor (t_dtype t) (firstn dim (t_shape t) ++ 1%nat :: skipn dim (t_shape t))
                 (t_data t))
  else Raise IndexError.

(** [t.squeeze(dim)] for [0 <= dim]: drops the dimension when it is 1. *)
Definition squeeze (t : Tensor Z) (dim : nat) : result (Tensor Z) :=
  match nth_error (t_shape t) dim with
  | None => Raise IndexError
  | Some 1%nat =>
      Ok (mkTensor (t_dtype t) (firstn dim (t_shape t) ++ skipn (S dim) (t_shape t))
                   (t_data t))
  | Some _ => Ok t
  end.

(** [torch.matmul(a, b)] of two matrices of one dtype. Only the 2-D by 2-D
    product is modelled (the sampling functions multiply an
    (nshots, nqubits) matrix by an (nqubits, 1) column); operands of other
    ranks are rejected here. *)
Definition matmul (a b : Tensor Z) : result (Tensor Z) :=
  match t_shape a, t_shape b with
  | [m; k], [k'; p] =>
      if (Nat.eqb k k' && dtype_eqb (t_dtype a) (t_dtype b))%bool then
        Ok (mkTensor (t_dtype a) [m; p]
              (flat_map (fun i =>
                 map (fun j =>
                   fit (t_dtype a)
                     (Zsum (map (fun l => nth (i * k + l) (t_data a) 0
                                          * nth (l * p + j) (t_data b) 0)
                                (seq 0 k))))
                   (seq 0 p))
                 (seq 0 m)))
      else Raise RuntimeError
  | _, _ => Raise RuntimeError
  end.

(** [t[:, None]]: a new axis after the first one. *)
Definition colon_None (t : Tensor Z) : result (Tensor Z) :=
  match t_shape t with
  | [] => Raise IndexError
  | _ :: _ => unsqueeze t 1
  end.

(** [a >> b] where [a] is a column of shape (m, 1) and [b] a vector of
    shape (n): broadcasting gives shape (m, n), entry (i, j) being
    [a[i] >> b[j]] (an arithmetic shift; shift counts are taken in
    0..31). Other shapes are rejected here. *)
Definition rshift (a b : Tensor Z) : result (Tensor Z) :=
  match t_shape a, t_shape b with
  | [m; 1%nat], [n] =>
      Ok (mkTensor (promote_types (t_dtype a) (t_dtype b)) [m; n]
            (flat_map (fun x => map (fun s => Z.shiftr x s) (t_data b)) (t_data a)))
  | _, _ => Raise RuntimeError
  end.

(** [t % k]: Python's remainder, with the sign of [k]. *)
Definition remainder (t : Tensor Z) (k : Z) : Tensor Z :=
  mkTensor (t_dtype t) (t_shape t) (map (fun x => x mod k) (t_data t)).

Section Sampling.

(** [self.dtype] of the backend; the sampling functions always pass an
    explicit dtype. *)
Variable self_dtype : torch_dtype.

Definition cast_Z := cast convert_Z tensor_contents_Z self_dtype.

(** [PyTorchBackend.samples_to_decimal], lines 136-140. *)
Definition samples_to_decimal (samples : cast_input Z ndarray) (nqubits : Z)
  : result (Tensor Z) :=
  let! samples := cast_Z samples (DStr "int32") false in
  let qrange := arange (nqubits - 1) (-1) (-1) t_int32 in
  let! qrange := unsqueeze (rpow 2 qrange) 1 in
  let! prod := matmul samples qrange in
  squeeze prod 1.

(** [PyTorchBackend.samples_to_binary], lines 142-147. *)
Definition samples_to_binary (samples : cast_input Z ndarray) (nqubits : Z)
  : result (Tensor Z) :=
  let! samples := cast_Z samples (DStr "int32") false in
  let qrange := arange (nqubits - 1) (-1) (-1) t_int32 in
  let samples := to convert_Z samples t_int32 in
  let! col := colon_None samples in
  let! samples := rshift col qrange in
  Ok (remainder samples 2).

End Sampling.

(** ** [torch.norm]

    [torch.norm(t, p=order)] without [dim]: a string order names a matrix
    norm, a number the vector norm of the flattened tensor,
    [(sum |x| ** p) ** (1 / p)].  The result is a 0-dimensional tensor of
    the real dtype that goes with the dtype of [t]; integer and boolean
    tensors are refused.  The floating-point operations are parameters:
    - [modulus x]: the absolute value of [x];
    - [power x p]: [x ** p];
    - [root p x]: [x ** (1 / p)];
    - [maximum x y]: the larger of two values;
    - [is_zero x]: [x == 0];
    - [nuclear t]: the sum of the singular values of the matrix [t]. *)

Section Norm.

Context {A : Type}.
Variables zero one : A.
Variable add : A -> A -> A.
Variable modulus : A -> A.
Variable power : A -> Z -> A.
Variable root : Z -> A -> A.
Variable maximum : A -> A -> A.
Variable is_zero : A -> bool.
Variable nuclear : Tensor A -> A.

(** The dtype of a norm of a tensor of dtype [d]. *)
Definition real_dtype (d : torch_dtype) : result torch_dtype :=
  match d with
  | t_complex64 => Ok t_float32
  | t_complex128 => Ok t_float64
  | t_float16 | t_float32 | t_float64 => Ok d
  | _ => Raise RuntimeError
  end.

(** The vector p-norm of the entries, for [p <> 0]. *)
Definition p_norm (p : Z) (data : list A) : A :=
  root p (fold_left add (map (fun x => power (modulus x) p) data) zero).

(** The number of entries that are not zero. *)
Definition count_nonzero (data : list A) : A :=
  fold_left add (map (fun x => if is_zero x then zero else one) data) zero.

Definition torch_norm (t : Tensor A) (p : norm_order) : result (Tensor A) :=
  let! dtype := real_dtype (t_dtype t) in
  match p with
  | OrdStr s =>
      if String.eqb s "fro" then
        Ok (mkTensor dtype [] [p_norm 2 (t_data t)])
      else if String.eqb s "nuc" then
        match t_shape t with
        | [_; _] => Ok (mkTensor dtype [] [nuclear t])
        | _ => Raise RuntimeError
        end
      else Raise RuntimeError
  | OrdNum p =>
      if p =? 0 then Ok (mkTensor dtype [] [count_nonzero (t_data t)])
      else Ok (mkTensor dtype [] [p_norm p (t_data t)])
  | OrdInf =>
      match t_data t with
      | [] => Raise RuntimeError
      | x :: rest =>
          Ok (mkTensor dtype []
                [fold_left maximum (map modulus rest) (modulus x)])
      end
  end.

End Norm.

(** ** Exact numbers: the instance used by the norm functions

    An entry is an integer, the root of a non-negative integer where
    that is no integer, or a value that this instance does not follow
    (it stands for some floating-point number). *)
Inductive num : Type :=
| Integer (z : Z)
| Root (p : Z) (radicand : Z)
| Unfollowed.

Definition num_add (a b : num) : num :=
  match a, b with
  | Integer x, Integer y => Integer (x + y)
  | _, _ => Unfollowed
  end.

Definition num_modulus (a : num) : num :=
  match a with
  | Integer x => Integer (Z.abs x)
  | _ => a
  end.

Definition num_power (a : num) (p : Z) : num :=
  match a with
  | Integer x => if 0 <=? p then Integer (x ^ p) else Unfollowed
  | _ => Unfollowed
  end.

Definition num_root (p : Z) (a : num) : num :=
  match a with
  | Integer x =>
      if p =? 1 then Integer x
      else if (2 <=? p) && (0 <=? x) then
        if (p =? 2) && (Z.sqrt x * Z.sqrt x =? x) then Integer (Z.sqrt x)
        else Root p x
      else Unfollowed
  | _ => Unfollowed
  end.

Definition num_maximum (a b : num) : num :=
  match a, b with
  | Integer x, Integer y => Integer (Z.max x y)
  | _, _ => Unfollowed
  end.

Definition num_is_zero (a : num) : bool :=
  match a with
  | Integer x => x =? 0
  | _ => false
  end.

(** The singular values are not followed. *)
Definition num_nuclear (t : Tensor num) : num := Unfollowed.

Definition convert_num (src dst : torch_dtype) (a : num) : num :=
  match a with
  | Integer x => Integer (fit dst x)
  | _ => a
  end.

Definition contents_of_num (dst : torch_dtype) (row : Tensor num + ndarray)
  : list nat * list num :=
  match row with
  | inl t => (t_shape t, map (convert_num (t_dtype t) dst) (t_data t))
  | inr a => (a_shape a, map (fun z => Integer (fit dst z)) (a_data a))
  end.

(** torch.tensor on these entries, as on integer data. *)
Definition tensor_contents_num (x : cast_input num ndarray) (dst : torch_dtype)
  : result (list nat * list num) :=
  match x with
  | XTensor t => Ok (contents_of_num dst (inl t))
  | XOther a => Ok (contents_of_num dst (inr a))
  | XList [] => Ok ([0%nat], [])
  | XList (r0 :: rest) =>
      let s0 := fst (contents_of_num dst r0) in
      if forallb (fun r => shape_eqb (fst (contents_of_num dst r)) s0) rest
      then Ok (S (length rest) :: s0,
               flat_map (fun r => snd (contents_of_num dst r)) (r0 :: rest))
      else Raise ValueError
  end.

Definition norm_num : Tensor num -> norm_order -> result (Tensor num) :=
  torch_norm (Integer 0) (Integer 1) num_add num_modulus num_power num_root
             num_maximum num_is_zero num_nuclear.

Definition calculate_norm_density_matrix_num (self_dtype : torch_dtype) :=
  calculate_norm_density_matrix convert_num tensor_contents_num self_dtype
    (Integer 0) num_add norm_num.



(** *** What the sampling claims speak about *)

(** Base-2 value of a row of bits, first bit most significant. *)
Definition binary_value (bits : list Z) : Z :=
  fold_left (fun acc b => 2 * acc + b) bits 0.

(** The [n] binary digits of [v], most significant first. *)
Definition bits_of (n : nat) (v : Z) : list Z :=
  map (fun i => Z.shiftr v (Z.of_nat (n - 1 - i)) mod 2) (seq 0 n).

(** The weights [2 ** qrange]: 2^(n-1), ..., 2, 1. *)
Definition pow2s (n : nat) : list Z :=
  map (fun i => 2 ^ Z.of_nat (n - 1 - i)) (seq 0 n).

Definition is_bit (z : Z) : Prop := z = 0 \/ z = 1.

(** A bit matrix of shape (length rows, n). *)
Definition bit_rows (n : nat) (rows : list (list Z)) : Prop :=
  Forall (fun r => length r = n /\ Forall is_bit r) rows.

(** [x] is a tensor or an array of the given shape and row-major entries. *)
Definition holds (x : cast_input Z ndarray) (shape : list nat) (data : list Z)
  : Prop :=
  match x with
  | XTensor t => t_shape t = shape /\ t_data t = data
  | XOther a => a_shape a = shape /\ a_data a = data
  | XList _ => False
  end.


(** * Gates, circuits and gate fusion

    The gate classes, [Circuit] and the fusion pass ([qibo.tensorflow.fusion])
    are exercised by [src/qibo/tests/test_fusion.py] but are not among the
    sources; they are modelled here from the specification's description of
    gate fusion and from what the tests construct and assert. *)

From Stdlib Require PrimFloat.

(** ** Scalars

    Amplitudes and matrix entries are numbers with their arithmetic
    operations: binary64 floating-point numbers in the program, whose
    arithmetic rounds, or the elements of a ring where the arithmetic is
    to be exact. *)

Class Scalar (R : Type) : Type := {
  s0 : R;
  s1 : R;
  sadd : R -> R -> R;
  smul : R -> R -> R;
  ssub : R -> R -> R;
  sopp : R -> R
}.

Declare Scope scalar_scope.
Delimit Scope scalar_scope with S.
Infix "+" := sadd : scalar_scope.
Infix "*" := smul : scalar_scope.
Infix "-" := ssub : scalar_scope.
Notation "- x" := (sopp x) : scalar_scope.

(** The arithmetic is exact: the operations form a commutative ring.
    This holds for the integers and fails for floating-point numbers. *)
Class ExactScalar (R : Type) {SR : Scalar R} : Prop :=
  scalar_ring : ring_theory s0 s1 sadd smul ssub sopp (@eq R).

#[export] Instance Z_Scalar : Scalar Z := {|
  s0 := 0; s1 := 1;
  sadd := Z.add; smul := Z.mul; ssub := Z.sub; sopp := Z.opp
|}.

#[export] Instance Z_Exact : ExactScalar Z := Zth.

(** binary64, the arithmetic of the program on real entries. *)
#[export] Instance float_Scalar : Scalar PrimFloat.float := {|
  s0 := PrimFloat.zero; s1 := PrimFloat.one;
  sadd := PrimFloat.add; smul := PrimFloat.mul;
  ssub := PrimFloat.sub; sopp := PrimFloat.opp
|}.

(** 1 / sqrt(2) in binary64, as [1 / np.sqrt(2)] computes it. *)
Definition float_h : PrimFloat.float :=
  PrimFloat.div PrimFloat.one (PrimFloat.sqrt PrimFloat.two).

(** A numpy 2-D array, as the list of its rows. *)
Abbreviation matrix R := (list (list R)).

Section Gates.

Context {R : Type} {SR : Scalar R}.

(** ** Matrices: numpy 2-D arrays as lists of rows ([matrix R]) *)


Definition entry (U : matrix R) (i j : nat) : R := nth j (nth i U []) s0.

Definition nrows (U : matrix R) : nat := length U.
Definition ncols (U : matrix R) : nat := length (hd [] U).

(** [U] is an r x c array. *)
Definition dim (r c : nat) (U : matrix R) : Prop :=
  length U = r /\ Forall (fun row => length row = c) U.

Definition sum_list {X : Type} (f : X -> R) (l : list X) : R :=
  fold_right (fun x acc => (f x + acc)%S) s0 l.

(** [A @ B] of numpy. *)
Definition mmul (A B : matrix R) : matrix R :=
  map (fun i =>
         map (fun j => sum_list (fun k => (entry A i k * entry B k j)%S)
                                (seq 0 (nrows B)))
             (seq 0 (ncols B)))
      (seq 0 (nrows A)).

(** [np.kron(A, B)]. *)
Definition kron (A B : matrix R) : matrix R :=
  flat_map (fun rowA =>
              map (fun rowB => flat_map (fun a => map (fun b => (a * b)%S) rowB) rowA) B)
           A.

Definition eye (n : nat) : matrix R :=
  map (fun i => map (fun j => if Nat.eqb i j then s1 else s0) (seq 0 n)) (seq 0 n).

(** The 4 x 4 matrix of a two-qubit gate with its two qubits exchanged:
    rows and columns 1 and 2 (bit patterns 01 and 10) trade places. *)
Definition exchange {X : Type} (d : X) (l : list X) : list X :=
  [nth 0 l d; nth 2 l d; nth 1 l d; nth 3 l d].

Definition swap_qubits (U : matrix R) : matrix R :=
  map (exchange s0) (exchange [] U).

(** ** Gates *)

(** Modelled from the spec: the gate classes of [qibo.gates] are not among
    the sources. A gate is what the tests use of it: its class name, the
    qubits it acts on ([gate.qubits], controls first) and its matrix on
    those qubits ([gate.unitary]); a [CallbackGate] acts on no qubit and
    has no matrix. *)
Inductive Gate : Type :=
| MatrixGate (name : string) (qubits : list nat) (unitary : matrix R)
| CallbackGate (callback : string).

Definition qubits (g : Gate) : list nat :=
  match g with
  | MatrixGate _ qs _ => qs
  | CallbackGate _ => []
  end.

Definition unitary (g : Gate) : matrix R :=
  match g with
  | MatrixGate _ _ U => U
  | CallbackGate _ => []
  end.

Definition mX : matrix R := [[s0; s1]; [s1; s0]].
(** Hadamard, [h] standing for 1/sqrt(2). *)
Definition mH (h : R) : matrix R := [[h; h]; [h; (- h)%S]].
Definition mCNOT : matrix R :=
  [[s1; s0; s0; s0]; [s0; s1; s0; s0]; [s0; s0; s0; s1]; [s0; s0; s1; s0]].
Definition mCZ : matrix R :=
  [[s1; s0; s0; s0]; [s0; s1; s0; s0]; [s0; s0; s1; s0]; [s0; s0; s0; (- s1)%S]].
Definition mSWAP : matrix R :=
  [[s1; s0; s0; s0]; [s0; s0; s1; s0]; [s0; s1; s0; s0]; [s0; s0; s0; s1]].
(** fSim, with [c] = cos(theta), [s] = -i sin(theta), [e] = exp(-i phi). *)
Definition mfSim (c s e : R) : matrix R :=
  [[s1; s0; s0; s0]; [s0; c; s; s0]; [s0; s; c; s0]; [s0; s0; s0; e]].

Definition X (q : nat) : Gate := MatrixGate "X" [q] mX.
Definition H (h : R) (q : nat) : Gate := MatrixGate "H" [q] (mH h).
Definition CNOT (q0 q1 : nat) : Gate := MatrixGate "CNOT" [q0; q1] mCNOT.
Definition CZ (q0 q1 : nat) : Gate := MatrixGate "CZ" [q0; q1] mCZ.
Definition SWAP (q0 q1 : nat) : Gate := MatrixGate "SWAP" [q0; q1] mSWAP.
Definition fSim (c s e : R) (q0 q1 : nat) : Gate :=
  MatrixGate "fSim" [q0; q1] (mfSim c s e).
Definition Unitary (U : matrix R) (qs : list nat) : Gate :=
  MatrixGate "Unitary" qs U.

Definition qubits_eqb (a b : list nat) : bool :=
  if list_eq_dec Nat.eq_dec a b then true else false.

(** Modelled from the spec: [Gate.__matmul__] is not among the sources.
    test_fusion.py (lines 11-50) fixes its behaviour: for two gates on the
    same qubits [g1 @ g2] is a gate whose [unitary] is the product of the
    two matrices, and when the target qubits do not agree the operator
    raises [NotImplementedError]. A callback gate has no matrix to
    multiply. *)
Definition matmul_gate (g1 g2 : Gate) : result Gate :=
  match g1, g2 with
  | MatrixGate _ qs1 U1, MatrixGate _ qs2 U2 =>
      if qubits_eqb qs1 qs2 then Ok (Unitary (mmul U1 U2) qs1)
      else Raise NotImplementedError
  | _, _ => Raise NotImplementedError
  end.

(** The matrix of [g1 @ g2], when there is one. *)
Definition product_unitary (g1 g2 : Gate) : result (matrix R) :=
  let! g := matmul_gate g1 g2 in Ok (unitary g).

(** ** Fusion groups *)

(** Modelled from the spec: the class [FusionGroup] is not among the
    sources. Its fields are the ones test_fusion.py reads: the one-qubit
    gates on each of the two qubits, split into the runs between
    consecutive two-qubit gates ([gates0], [gates1]), and the two-qubit
    gates ([two_qubit_gates]), so that
    [len(gates0) = len(gates1) = len(two_qubit_gates) + 1]. A gate that is
    neither a one- nor a two-qubit gate (a callback) is a group of its
    own. *)
Record FusionGroup : Type := mkGroup {
  qubit0 : option nat;
  qubit1 : option nat;
  gates0 : list (list Gate);
  gates1 : list (list Gate);
  two_qubit_gates : list Gate;
  special_gate : option Gate;
  completed : bool
}.

Definition new_group : FusionGroup :=
  mkGroup None None [[]] [[]] [] None false.

Definition is_matrix (g : Gate) : bool :=
  match g with
  | MatrixGate _ _ _ => true
  | CallbackGate _ => false
  end.

Definition is_special (g : Gate) : bool :=
  match qubits g with
  | [_] | [_; _] => false
  | _ => true
  end.

(** [l[-1].append(g)]. *)
Fixpoint append_last (l : list (list Gate)) (g : Gate) : list (list Gate) :=
  match l with
  | [] => [[g]]
  | [run] => [run ++ [g]]
  | run :: rest => run :: append_last rest g
  end.

Definition is_qubit (o : option nat) (q : nat) : bool :=
  match o with
  | Some q' => Nat.eqb q' q
  | None => false
  end.

Definition unset (o : option nat) : bool :=
  match o with
  | Some _ => false
  | None => true
  end.

(** Modelled from the spec: [FusionGroup.can_add]. A one-qubit gate fits
    when its qubit is, or can become, one of the two qubits of the group;
    a two-qubit gate fits when its pair of qubits is, or can become, the
    pair of the group. *)
Definition can_add (group : FusionGroup) (gate : Gate) : bool :=
  if completed group then false else
  match qubits gate with
  | [q] =>
      unset (qubit0 group) || is_qubit (qubit0 group) q
      || unset (qubit1 group) || is_qubit (qubit1 group) q
  | [a; b] =>
      match qubit0 group, qubit1 group with
      | None, _ => true
      | Some q0, None => Nat.eqb q0 a || Nat.eqb q0 b
      | Some q0, Some q1 =>
          (Nat.eqb q0 a && Nat.eqb q1 b) || (Nat.eqb q0 b && Nat.eqb q1 a)
      end
  | _ => false
  end.

(** Modelled from the spec: [FusionGroup.add], called on a new group or
    after [can_add]. *)
Definition add (group : FusionGroup) (gate : Gate) : FusionGroup :=
  match qubits gate with
  | [q] =>
      if unset (qubit0 group) || is_qubit (qubit0 group) q then
        mkGroup (Some q) (qubit1 group)
                (append_last (gates0 group) gate) (gates1 group)
                (two_qubit_gates group) None false
      else
        mkGroup (qubit0 group) (Some q)
                (gates0 group) (append_last (gates1 group) gate)
                (two_qubit_gates group) None false
  | [a; b] =>
      let '(q0, q1) :=
        match qubit0 group, qubit1 group with
        | None, _ => (a, b)
        | Some q0, None => (q0, if Nat.eqb q0 a then b else a)
        | Some q0, Some q1 => (q0, q1)
        end in
      mkGroup (Some q0) (Some q1)
              (gates0 group ++ [[]]) (gates1 group ++ [[]])
              (two_qubit_gates group ++ [gate]) None false
  | _ =>
      mkGroup (qubit0 group) (qubit1 group) (gates0 group) (gates1 group)
              (two_qubit_gates group) (Some gate) true
  end.

(** Modelled from the spec: [Gate.commutes], as far as fusion needs it.
    Gates on disjoint sets of qubits commute; nothing is moved across a
    callback. *)
Definition commutes (g1 g2 : Gate) : bool :=
  negb (is_special g1) && negb (is_special g2)
  && forallb (fun q => negb (existsb (Nat.eqb q) (qubits g2))) (qubits g1).

(** Modelled from the spec: one pass of [from_queue] over the remaining
    gates. A gate joins the group when it fits and commutes with every
    gate left behind so far; otherwise it is left behind, in order. *)
Fixpoint fill (group : FusionGroup) (blocked gates : list Gate)
  : FusionGroup * list Gate :=
  match gates with
  | [] => (group, blocked)
  | gate :: rest =>
      if completed group then (group, blocked ++ gate :: rest)
      else if can_add group gate && forallb (commutes gate) blocked
      then fill (add group gate) blocked rest
      else fill group (blocked ++ [gate]) rest
  end.

(** Modelled from the spec: [group.completed = True] at the end of a
    pass. *)
Definition complete (group : FusionGroup) : FusionGroup :=
  mkGroup (qubit0 group) (qubit1 group) (gates0 group) (gates1 group)
          (two_qubit_gates group) (special_gate group) true.

(** Modelled from the spec: the loop [while remaining_queue:] of
    [from_queue]. Every pass takes at least the first remaining gate, so
    [length queue] passes are enough. *)
Fixpoint from_queue_loop (passes : nat) (remaining : list Gate)
  : list FusionGroup :=
  match passes, remaining with
  | S passes', gate :: rest =>
      let '(group, remaining') := fill (add new_group gate) [] rest in
      complete group :: from_queue_loop passes' remaining'
  | _, _ => []
  end.

(** Modelled from the spec: [FusionGroup.from_queue], "merging sequential
    one/two-qubit gate unitaries into larger combined unitary blocks". *)
Definition from_queue (queue : list Gate) : list FusionGroup :=
  from_queue_loop (length queue) queue.

(** Modelled from the spec: the product of the matrices of one-qubit
    gates applied in order (later gates multiply on the left). *)
Definition one_qubit_matrix (gs : list Gate) : matrix R :=
  fold_left (fun M g => mmul (unitary g) M) gs (eye 2).

(** Modelled from the spec: the matrix of a two-qubit gate of the group
    on (qubit0, qubit1), whichever way round the gate names them. *)
Definition two_qubit_matrix (q0 q1 : nat) (g : Gate) : matrix R :=
  if qubits_eqb (qubits g) [q1; q0] then swap_qubits (unitary g)
  else unitary g.

(** Modelled from the spec: the fused matrix. Each two-qubit gate and
    the runs of one-qubit gates that follow it multiply the matrix built
    so far on the left. *)
Fixpoint fused_matrix (q0 q1 : nat) (M : matrix R)
    (g0s g1s : list (list Gate)) (twos : list Gate) : matrix R :=
  match g0s, g1s, twos with
  | run0 :: g0s', run1 :: g1s', two :: twos' =>
      fused_matrix q0 q1
        (mmul (mmul (kron (one_qubit_matrix run0) (one_qubit_matrix run1))
                    (two_qubit_matrix q0 q1 two))
              M)
        g0s' g1s' twos'
  | _, _, _ => M
  end.

(** Modelled from the spec: [FusionGroup.calculate] and the property
    [gates]: the gates a group is replaced by. A group with two-qubit
    gates becomes one [Unitary] on its two qubits, whose matrix multiplies
    the matrices of its gates in reverse order of application; a group of
    one-qubit gates only becomes one [Unitary] per qubit. *)
Definition calculate (group : FusionGroup) : list Gate :=
  match special_gate group with
  | Some g => [g]
  | None =>
    match qubit0 group, qubit1 group, two_qubit_gates group with
    | None, _, _ => []
    | Some q0, None, _ =>
        [Unitary (one_qubit_matrix (concat (gates0 group))) [q0]]
    | Some q0, Some q1, [] =>
        [Unitary (one_qubit_matrix (concat (gates0 group))) [q0];
         Unitary (one_qubit_matrix (concat (gates1 group))) [q1]]
    | Some q0, Some q1, _ :: _ =>
        [Unitary
           (fused_matrix q0 q1
              (kron (one_qubit_matrix (hd [] (gates0 group)))
                    (one_qubit_matrix (hd [] (gates1 group))))
              (tl (gates0 group)) (tl (gates1 group)) (two_qubit_gates group))
           [q0; q1]]
    end
  end.




End Gates.

(** A rotation matrix with cosine 3/5 and sine 4/5, and a column of
    ones, in binary64. *)
Definition float_rotation : matrix PrimFloat.float :=
  let three := PrimFloat.add PrimFloat.one PrimFloat.two in
  let four := PrimFloat.mul PrimFloat.two PrimFloat.two in
  let five := PrimFloat.add four PrimFloat.one in
  let c := PrimFloat.div three five in
  let s := PrimFloat.div four five in
  [[c; PrimFloat.opp s]; [s; c]].

Definition float_ones : matrix PrimFloat.float :=
  [[PrimFloat.one]; [PrimFloat.one]].

(** * More of the PyTorch backend: [_append_zeros] and [dimensions] *)

Section Collapse.

Context {A : Type}.

(** The zero entry of the tensor's dtype. *)
Variable zero : A.

(** The number of entries a shape asks for. *)
Definition numel (shape : list nat) : nat := fold_right Nat.mul 1%nat shape.

(** A tensor holds as many entries as its shape says. *)
Definition well_shaped (t : Tensor A) : Prop :=
  length (t_data t) = numel (t_shape t).

(** [torch.unsqueeze(t, dim=dim)] for [0 <= dim]. *)
Definition torch_unsqueeze (t : Tensor A) (dim : nat) : result (Tensor A) :=
  if Nat.leb dim (length (t_shape t)) then
    Ok (mkTensor (t_dtype t)
                 (firstn dim (t_shape t) ++ 1%nat :: skipn dim (t_shape t))
                 (t_data t))
  else Raise IndexError.

(** [torch.zeros_like(t)]. *)
Definition zeros_like (t : Tensor A) : Tensor A :=
  mkTensor (t_dtype t) (t_shape t) (repeat zero (length (t_data t))).

(** The row-major entries of two tensors joined along an axis: for each
    of the [outer] index prefixes, the [ka] entries of the first tensor
    and then the [kb] entries of the second. *)
Fixpoint cat_data (ka kb outer : nat) (a b : list A) : list A :=
  match outer with
  | O => []
  | S outer' =>
      firstn ka a ++ firstn kb b
      ++ cat_data ka kb outer' (skipn ka a) (skipn kb b)
  end.

(** [torch.cat([a, b], dim=dim)] for [0 <= dim]: the two shapes must agree
    outside [dim], and the dtypes here are equal. *)
Definition cat (a b : Tensor A) (dim : nat) : result (Tensor A) :=
  let sa := t_shape a in
  let sb := t_shape b in
  if Nat.leb (length sa) dim then Raise IndexError
  else if shape_eqb (firstn dim sa) (firstn dim sb)
          && shape_eqb (skipn (S dim) sa) (skipn (S dim) sb)
          && Nat.eqb (length sa) (length sb)
  then
    Ok (mkTensor (promote_types (t_dtype a) (t_dtype b))
          (firstn dim sa ++ (nth dim sa 0 + nth dim sb 0)%nat :: skipn (S dim) sa)
          (cat_data (numel (skipn dim sa)) (numel (skipn dim sb))
                    (numel (firstn dim sa)) (t_data a) (t_data b)))
  else Raise RuntimeError.

(** [PyTorchBackend._append_zeros], lines 207-215: [zip] stops at the
    shorter of [qubits] and [results]; [r] is the truth value of a
    result. *)
Fixpoint _append_zeros (state : Tensor A) (qubits : list nat)
    (results : list bool) : result (Tensor A) :=
  match qubits, results with
  | q :: qubits', r :: results' =>
      let! state := torch_unsqueeze state q in
      let! state :=
        if r then cat (zeros_like state) state q
        else cat state (zeros_like state) q in
      _append_zeros state qubits' results'
  | _, _ => Ok state
  end.

(** One round of the loop of [_append_zeros]: a new axis at [q], the
    state in the half of index [r] and zeros in the other half. *)
Definition append_step (state : Tensor A) (q : nat) (r : bool)
  : result (Tensor A) :=
  let! state := torch_unsqueeze state q in
  if r then cat (zeros_like state) state q
  else cat state (zeros_like state) q.

(** The shape after one binary axis was inserted at each qubit in turn. *)
Fixpoint grown_shape (shape : list nat) (qubits : list nat)
    (results : list bool) : list nat :=
  match qubits, results with
  | q :: qubits', _ :: results' =>
      grown_shape (firstn q shape ++ 2%nat :: skipn q shape) qubits' results'
  | _, _ => shape
  end.

(** Every axis index is valid at the moment its axis is inserted. *)
Fixpoint axes_in_range (rank : nat) (qubits : list nat)
    (results : list bool) : Prop :=
  match qubits, results with
  | q :: qubits', _ :: results' =>
      (q <= rank)%nat /\ axes_in_range (S rank) qubits' results'
  | _, _ => True
  end.

(** [PyTorchBackend.dimensions], lines 149-150. *)
Definition dimensions (x : Tensor A) : nat := length (t_shape x).

End Collapse.

(** * The test configuration: [src/qibo/tests/conftest.py] *)

(** [sep in s] for a separator of one character. *)
Fixpoint str_contains (sep : Ascii.ascii) (s : string) : bool :=
  match s with
  | EmptyString => false
  | String c s' => Ascii.eqb c sep || str_contains sep s'
  end.

(** [s.split(sep)] for a separator of one character: the pieces between
    the occurrences of [sep], empty pieces included. *)
Fixpoint str_split (sep : Ascii.ascii) (s : string) : list string :=
  match s with
  | EmptyString => [EmptyString]
  | String c s' =>
      if Ascii.eqb c sep then EmptyString :: str_split sep s'
      else match str_split sep s' with
           | piece :: pieces => String c piece :: pieces
           | [] => [String c EmptyString]
           end
  end.

(** The hyphen that separates a backend's name from its platform: the
    one character of the string ["-"]. *)
Definition hyphen : Ascii.ascii :=
  match "-" with
  | String c _ => c
  | EmptyString => Ascii.zero
  end.

(** [x in l] for a list or set of strings. *)
Definition str_in (x : string) (l : list string) : bool :=
  existsb (String.eqb x) l.

(** What a call gives that may fail: a value, one of the two import
    errors that the module catches ([ModuleNotFoundError] is a subclass
    of [ImportError]), or any other exception. *)
Inductive attempt (B : Type) : Type :=
| Returned (b : B)
| ImportFailed
| Uncaught (e : exn).

Arguments Returned {B} b.
Arguments ImportFailed {B}.
Arguments Uncaught {B} e.

(** Lines 11-19. *)
Definition INACTIVE_TESTS : list string :=
  ["qibo.tests.test_backends_agreement";
   "qibo.tests.test_backends_init";
   "qibo.tests.test_backends_matrices";
   "qibo.tests.test_core_measurements";
   "qibo.tests.test_core_states_distributed";
   "qibo.tests.test_core_states";
   "qibo.tests.test_parallel"].

(** Line 22. *)
Definition BACKENDS : list string :=
  ["numpy"; "tensorflow"; "qibojit-numba"; "qibojit-cupy"].

(** A multi-GPU configuration: device names with their numbers of uses. *)
Definition accelerators : Type := list (string * nat).

(** Lines 24-25. *)
Definition ACCELERATORS : list accelerators :=
  [[("/GPU:0", 1%nat); ("/GPU:1", 1%nat)];
   [("/GPU:0", 2%nat); ("/GPU:1", 2%nat)];
   [("/GPU:0", 1%nat); ("/GPU:1", 1%nat); ("/GPU:2", 1%nat); ("/GPU:3", 1%nat)]].

(** One call of [metafunc.parametrize]. *)
Inductive parametrize : Type :=
| ByBackendAndAccelerators (config : list (string * option accelerators))
| ByBackend (names : list string)
| ByAccelerators (configs : list accelerators)
| BySkipParallel (values : list bool).

(** What [pytest_generate_tests] does: it leaves through [pytest.skip],
    or it returns after some calls of [metafunc.parametrize]. *)
Inductive generated : Type :=
| Skipped (reason : option string)
| Parametrized (calls : list parametrize).

(** [pytest_runtest_setup], lines 48-55, for a test item with the marks
    [marks] on the platform [plat]: the reason of [pytest.skip], or
    nothing when the test is left to run.  The set [supported_platforms]
    is the part of [ALL] found among the marks. *)
Definition pytest_runtest_setup (marks : list string) (plat : string)
  : option string :=
  let ALL := ["darwin"; "linux"] in
  let supported_platforms := filter (fun p => str_in p marks) ALL in
  if negb (Nat.eqb (length supported_platforms) 0)
     && negb (str_in plat supported_platforms)
  then Some ("Cannot run test on platform " ++ plat ++ ".")%string
  else None.

Section Conftest.

(** The backend objects and [qibo.backends.construct_backend], which is
    not part of this module. *)
Variable backend : Type.
Variable construct_backend : string -> option string -> attempt backend.
Variable supports_multigpu : backend -> bool.

(** [get_backend], lines 28-33.  Unpacking the pieces into two names
    raises ValueError unless there are exactly two. *)
Definition get_backend (backend_name : string) : attempt backend :=
  if str_contains hyphen backend_name then
    match str_split hyphen backend_name with
    | [name; platform] => construct_backend name (Some platform)
    | _ => Uncaught ValueError
    end
  else construct_backend backend_name None.

(** A backend of the name could be constructed. *)
Definition constructed (backend_name : string) : bool :=
  match get_backend backend_name with
  | Returned _ => true
  | _ => false
  end.

(** A backend of the name could be constructed and supports multi-GPU. *)
Definition constructed_multigpu (backend_name : string) : bool :=
  match get_backend backend_name with
  | Returned b => supports_multigpu b
  | _ => false
  end.

(** The loop of lines 38-45 over a list of backend names, from the lists
    built so far. *)
Fixpoint collect_backends (names : list string)
    (AVAILABLE_BACKENDS MULTIGPU_BACKENDS : list string)
  : result (list string * list string) :=
  match names with
  | [] => Ok (AVAILABLE_BACKENDS, MULTIGPU_BACKENDS)
  | backend_name :: names' =>
      match get_backend backend_name with
      | Returned _backend =>
          collect_backends names'
            (AVAILABLE_BACKENDS ++ [backend_name])
            (if supports_multigpu _backend
             then MULTIGPU_BACKENDS ++ [backend_name]
             else MULTIGPU_BACKENDS)
      | ImportFailed =>
          collect_backends names' AVAILABLE_BACKENDS MULTIGPU_BACKENDS
      | Uncaught e => Raise e
      end
  end.

(** Lines 36-45: the two lists the module defines when it is imported. *)
Definition module_backends : result (list string * list string) :=
  collect_backends BACKENDS [] [].

(** Lines 82 and 89: every multi-GPU backend with every configuration. *)
Definition multigpu_config (MULTIGPU_BACKENDS : list string)
  : list (string * option accelerators) :=
  flat_map (fun acc => map (fun bk => (bk, Some acc)) MULTIGPU_BACKENDS)
           ACCELERATORS.

(** [pytest_generate_tests], lines 73-99, for a test function of module
    [module_name] with the fixtures [fixturenames]. *)
Definition pytest_generate_tests
    (AVAILABLE_BACKENDS MULTIGPU_BACKENDS : list string)
    (module_name : string) (fixturenames : list string)
    (skip_parallel : bool) : generated :=
  if str_in module_name INACTIVE_TESTS then Skipped None
  else if String.eqb module_name "qibo.tests.test_models_qgan"
          && negb (str_in "tensorflow" AVAILABLE_BACKENDS)
  then Skipped (Some "Skipping QGAN tests because tensorflow is not available.")
  else
    let backends :=
      if String.eqb module_name "qibo.tests.test_models_distcircuit_execution"
      then [ByBackendAndAccelerators (multigpu_config MULTIGPU_BACKENDS)]
      else if str_in "backend_name" fixturenames then
        if str_in "accelerators" fixturenames then
          [ByBackendAndAccelerators
             (map (fun backend => (backend, None)) AVAILABLE_BACKENDS
              ++ multigpu_config MULTIGPU_BACKENDS)]
        else [ByBackend AVAILABLE_BACKENDS]
      else if str_in "accelerators" fixturenames then
        [ByAccelerators ACCELERATORS]
      else [] in
    Parametrized
      (backends
       ++ (if str_in "skip_parallel" fixturenames
           then [BySkipParallel [skip_parallel]] else [])).

End Conftest.

(** A testing environment where only numpy and the cupy platform of
    qibojit can be imported, and only the latter supports multi-GPU. *)
Definition example_construct_backend (name : string) (platform : option string)
  : attempt (string * option string) :=
  match platform with
  | None => if String.eqb name "numpy" then Returned (name, None)
            else ImportFailed
  | Some p => if String.eqb p "cupy" then Returned (name, platform)
              else ImportFailed
  end.

(** [supports_multigpu] of the example's backends. *)
Definition example_supports_multigpu (b : string * option string) : bool :=
  match snd b with
  | Some _ => true
  | None => false
  end.

(** The calls of [metafunc.parametrize] for a test of [test_fusion] with
    the fixtures [backend_name] and [accelerators] in that environment. *)
Definition example_calls : list parametrize :=
  [ByBackendAndAccelerators
     (("numpy", None) :: ("qibojit-cupy", None)
      :: map (fun acc => ("qibojit-cupy", Some acc)) ACCELERATORS)].

(** * The circuits the tests build *)

(** [range(start, stop, step)] for a positive [step]. *)
Definition range (start stop step : Z) : list Z :=
  map (fun k => start + step * Z.of_nat k)
      (seq 0 (Z.to_nat ((stop - start + step - 1) / step))).

Section Circuits.

(** The rotation angles are floating-point numbers. *)
Variable angle : Type.

(** A gate as the tests construct it: the gate class, the qubits it is
    given and its angle, if it takes one. *)
Record gate_call : Type := mk_call {
  call_name : string;
  call_qubits : list Z;
  call_theta : option angle
}.

(** The gate acts on qubits of a circuit of [nqubits] qubits. *)
Definition acts_within (nqubits : Z) (g : gate_call) : bool :=
  forallb (fun q => (0 <=? q) && (q <? nqubits)) (call_qubits g).

(** The angles of the gates, in the order of the gates. *)
Definition angles_of (gates : list gate_call) : list angle :=
  flat_map (fun g => match call_theta g with
                     | Some theta => [theta]
                     | None => []
                     end) gates.

(** Modelled from the spec: the class [Circuit] is not among the
    sources.  What is used of it here: [Circuit(nqubits)] raises
    ValueError unless there is at least one qubit, and [c.add] is given
    the gates in order. *)
Definition Circuit (nqubits : Z) : result unit :=
  if nqubits <? 1 then Raise ValueError else Ok tt.

(** The angles [-2 * hz * dt - np.pi / 2], [np.pi / 2],
    [-2 * hx * dt + np.pi], [-np.pi / 2] and [-2 * dt] of [get_circuit]. *)
Variables theta_hz half_pi theta_hx minus_half_pi theta_zz : angle.

(** [get_circuit] of [tests/test_models_error_mitigation.py], lines
    31-50: the circuit is created, then the gates are given to [c.add],
    in this order. *)
Definition get_circuit (nqubits : Z) : result (list gate_call) :=
  let! c := Circuit nqubits in
  Ok (map (fun q => mk_call "RZ" [q] (Some theta_hz)) (range 0 nqubits 1)
      ++ map (fun q => mk_call "RX" [q] (Some half_pi)) (range 0 nqubits 1)
      ++ map (fun q => mk_call "RZ" [q] (Some theta_hx)) (range 0 nqubits 1)
      ++ map (fun q => mk_call "RX" [q] (Some half_pi)) (range 0 nqubits 1)
      ++ map (fun q => mk_call "RZ" [q] (Some minus_half_pi))
             (range 0 nqubits 1)
      ++ map (fun q => mk_call "CNOT" [q; q + 1] None)
             (range 0 (nqubits - 1) 2)
      ++ map (fun q => mk_call "RZ" [q + 1] (Some theta_zz))
             (range 0 (nqubits - 1) 2)
      ++ map (fun q => mk_call "CNOT" [q; q + 1] None)
             (range 0 (nqubits - 1) 2)
      ++ map (fun q => mk_call "CNOT" [q; q + 1] None) (range 1 nqubits 2)
      ++ map (fun q => mk_call "RZ" [q + 1] (Some theta_zz))
             (range 1 nqubits 2)
      ++ map (fun q => mk_call "CNOT" [q; q + 1] None) (range 1 nqubits 2)
      ++ [mk_call "M" (range 0 nqubits 1) None]).

(** How building a circuit from an iterator of angles ends: the circuit
    is built, [next] finds the iterator exhausted, or a constructor
    refuses its arguments with an exception. *)
Inductive construction (X : Type) : Type :=
| Built (x : X)
| Exhausted
| Refused (e : exn).

Arguments Built {X} x.
Arguments Exhausted {X}.
Arguments Refused {X} e.

(** [next(theta_iter)]: the next angle and the rest of the iterator, or
    nothing when the iterator is exhausted. *)
Definition next (theta_iter : list angle) : option (angle * list angle) :=
  match theta_iter with
  | [] => None
  | theta :: theta_iter' => Some (theta, theta_iter')
  end.

(** [(gates.RY(i, next(theta_iter)) for i in qubits)], consumed by
    [c.add]. *)
Fixpoint ry_gates (qubits : list Z) (theta_iter : list angle)
  : construction (list gate_call * list angle) :=
  match qubits with
  | [] => Built ([], theta_iter)
  | i :: qubits' =>
      match next theta_iter with
      | None => Exhausted
      | Some (theta, theta_iter) =>
          match ry_gates qubits' theta_iter with
          | Built (gates, theta_iter) =>
              Built (mk_call "RY" [i] (Some theta) :: gates, theta_iter)
          | Exhausted => Exhausted
          | Refused e => Refused e
          end
      end
  end.

(** Modelled from the spec: the gate classes are not among the sources.
    What is used of [gates.CZ] here: it raises ValueError when it is
    given the same qubit twice. *)
Definition CZ_gate (q0 q1 : Z) : result gate_call :=
  if q0 =? q1 then Raise ValueError
  else Ok (mk_call "CZ" [q0; q1] None).

(** [(gates.CZ(i, i + 1) for i in qubits)], consumed by [c.add]. *)
Fixpoint cz_gates (qubits : list Z) : result (list gate_call) :=
  match qubits with
  | [] => Ok []
  | i :: qubits' =>
      let! gate := CZ_gate i (i + 1) in
      let! gates := cz_gates qubits' in
      Ok (gate :: gates)
  end.

(** A step that cannot find the iterator exhausted. *)
Definition of_result {X : Type} (r : result X) : construction X :=
  match r with
  | Ok x => Built x
  | Raise e => Refused e
  end.

(** One round of the loop of [test_circuit_fuse_variational_layer],
    lines 110-114 of [test_fusion.py]. *)
Definition variational_layer (nqubits : Z) (theta_iter : list angle)
  : construction (list gate_call * list angle) :=
  match ry_gates (range 0 nqubits 1) theta_iter with
  | Built (ry1, theta_iter) =>
      match of_result (cz_gates (range 0 (nqubits - 1) 2)) with
      | Built cz1 =>
          match ry_gates (range 0 nqubits 1) theta_iter with
          | Built (ry2, theta_iter) =>
              match of_result (cz_gates (range 1 (nqubits - 2) 2)) with
              | Built cz2 =>
                  match of_result (CZ_gate 0 (nqubits - 1)) with
                  | Built cz3 =>
                      Built (ry1 ++ cz1 ++ ry2 ++ cz2 ++ [cz3], theta_iter)
                  | Exhausted => Exhausted
                  | Refused e => Refused e
                  end
              | Exhausted => Exhausted
              | Refused e => Refused e
              end
          | Exhausted => Exhausted
          | Refused e => Refused e
          end
      | Exhausted => Exhausted
      | Refused e => Refused e
      end
  | Exhausted => Exhausted
  | Refused e => Refused e
  end.

(** The loop of lines 109-114 over [nlayers] rounds. *)
Fixpoint variational_layers (nlayers : nat) (nqubits : Z)
    (theta_iter : list angle)
  : construction (list gate_call * list angle) :=
  match nlayers with
  | O => Built ([], theta_iter)
  | S nlayers' =>
      match variational_layer nqubits theta_iter with
      | Built (layer, theta_iter) =>
          match variational_layers nlayers' nqubits theta_iter with
          | Built (gates, theta_iter) => Built (layer ++ gates, theta_iter)
          | Exhausted => Exhausted
          | Refused e => Refused e
          end
      | Exhausted => Exhausted
      | Refused e => Refused e
      end
  end.

(** Lines 106-114: the circuit is created, then the gates of [nlayers]
    rounds are added, the angles taken from the iterator over [theta]. *)
Definition variational_circuit (nlayers : nat) (nqubits : Z)
    (theta : list angle) : construction (list gate_call * list angle) :=
  match Circuit nqubits with
  | Raise e => Refused e
  | Ok c => variational_layers nlayers nqubits theta
  end.

(** A gate a circuit of [nqubits] qubits accepts: distinct qubits, all
    of the circuit. *)
Definition valid_gate (nqubits : Z) (g : gate_call) : Prop :=
  NoDup (call_qubits g)
  /\ Forall (fun q => 0 <= q < nqubits) (call_qubits g).

End Circuits.

Arguments Built {X} x.
Arguments Exhausted {X}.
Arguments Refused {X} e.
Arguments mk_call {angle} call_name call_qubits call_theta.
Arguments call_name {angle} g.
Arguments call_qubits {angle} g.
Arguments call_theta {angle} g.
Arguments acts_within {angle} nqubits g.
Arguments angles_of {angle} gates.
Arguments get_circuit {angle} theta_hz half_pi theta_hx minus_half_pi theta_zz nqubits.
Arguments next {angle} theta_iter.
Arguments ry_gates {angle} qubits theta_iter.
Arguments CZ_gate {angle} q0 q1.
Arguments cz_gates {angle} qubits.
Arguments variational_layer {angle} nqubits theta_iter.
Arguments variational_layers {angle} nlayers nqubits theta_iter.
Arguments variational_circuit {angle} nlayers nqubits theta.
Arguments valid_gate {angle} nqubits g.
(** ** Lemmas on the integer instance *)

Lemma fit_int32_small z : - 2 ^ 31 <= z < 2 ^ 31 -> fit t_int32 z = z.
Proof.
  intros H. unfold fit, wrap.
  change (2 ^ (32 - 1)) with (2 ^ 31).
  rewrite Z.mod_small; lia.
Qed.

Lemma map_fit_int32_small l :
  Forall (fun z => - 2 ^ 31 <= z < 2 ^ 31) l -> map (fit t_int32) l = l.
Proof.
  induction 1 as [|z l Hz _ IH]; cbn [map]; [reflexivity|].
  now rewrite IH, fit_int32_small.
Qed.

Lemma cast_int32_holds sd x shape data :
  holds x shape data ->
  Forall (fun z => - 2 ^ 31 <= z < 2 ^ 31) data ->
  cast_Z sd x (DStr "int32") false = Ok (mkTensor t_int32 shape data).
Proof.
  intros Hx Hd. unfold cast_Z, cast. simpl.
  destruct x as [t|l|a]; simpl in Hx; try contradiction.
  - destruct Hx as [Hs Hdat]. destruct t as [d sh dat]; simpl in *; subst.
    unfold to; simpl. destruct (dtype_eqb d t_int32) eqn:E.
    + destruct d; try discriminate E. reflexivity.
    + unfold convert_Z. now rewrite map_fit_int32_small.
  - destruct Hx as [Hs Hdat]. unfold torch_tensor; simpl.
    subst. now rewrite map_fit_int32_small.
Qed.

Lemma binary_value_acc bits acc :
  fold_left (fun a b => 2 * a + b) bits acc
  = acc * 2 ^ Z.of_nat (length bits) + binary_value bits.
Proof.
  unfold binary_value. revert acc.
  induction bits as [|b r IH]; intros acc.
  - simpl. lia.
  - cbn [fold_left length]. rewrite IH, (IH (2 * 0 + b)).
    rewrite Nat2Z.inj_succ, Z.pow_succ_r by lia. lia.
Qed.

Lemma binary_value_cons b r :
  binary_value (b :: r) = b * 2 ^ Z.of_nat (length r) + binary_value r.
Proof.
  unfold binary_value at 1. cbn [fold_left].
  now rewrite binary_value_acc.
Qed.

Lemma binary_value_range r :
  Forall is_bit r -> 0 <= binary_value r < 2 ^ Z.of_nat (length r).
Proof.
  induction 1 as [|b r Hb _ IH].
  - cbn. lia.
  - rewrite binary_value_cons. cbn [length].
    rewrite Nat2Z.inj_succ, Z.pow_succ_r by lia.
    destruct Hb; subst; lia.
Qed.

Lemma flat_map_singleton {X Y : Type} (f : X -> Y) l :
  flat_map (fun x => [f x]) l = map f l.
Proof. induction l as [|x l IH]; simpl; congruence. Qed.

Lemma map_seq_nth {X Y : Type} (f : X -> Y) (d : X) l :
  map (fun i => f (nth i l d)) (seq 0 (length l)) = map f l.
Proof.
  induction l as [|x l IH]; [reflexivity|].
  cbn [length seq map nth]. f_equal.
  rewrite <- seq_shift, map_map. exact IH.
Qed.

Lemma nth_concat_rows (n : nat) rows i l :
  Forall (fun r => length r = n) rows ->
  (l < n)%nat ->
  nth (i * n + l) (concat rows) 0 = nth l (nth i rows []) 0.
Proof.
  intros Hrows Hl. revert i.
  induction Hrows as [|r rows Hr _ IH]; intros i.
  - cbn [concat]. now destruct (i * n + l)%nat, i, l.
  - cbn [concat]. destruct i as [|i].
    + cbn [Nat.mul Nat.add nth]. rewrite app_nth1 by lia. reflexivity.
    + cbn [nth]. rewrite app_nth2 by lia.
      replace (S i * n + l - length r)%nat with (i * n + l)%nat by lia.
      apply IH.
Qed.

Lemma arange_qrange n :
  (n <= 31)%nat ->
  arange (Z.of_nat n - 1) (-1) (-1) t_int32
  = mkTensor t_int32 [n] (map (fun i => Z.of_nat (n - 1 - i)) (seq 0 n)).
Proof.
  intros Hn. unfold arange. cbn [Z.ltb Z.compare].
  replace ((Z.of_nat n - 1 - -1 - -1 - 1) / - -1) with (Z.of_nat n)
    by (change (- -1) with 1; rewrite Z.div_1_r; lia).
  rewrite Nat2Z.id. f_equal.
  apply map_ext_in. intros i Hi. apply in_seq in Hi.
  rewrite fit_int32_small; lia.
Qed.

Lemma rpow_qrange n :
  (n <= 31)%nat ->
  rpow 2 (arange (Z.of_nat n - 1) (-1) (-1) t_int32)
  = mkTensor t_int32 [n] (pow2s n).
Proof.
  intros Hn. rewrite arange_qrange by exact Hn.
  unfold rpow, pow2s. cbn [t_dtype t_shape t_data]. f_equal.
  rewrite map_map. apply map_ext_in. intros i Hi. apply in_seq in Hi.
  apply fit_int32_small. split.
  - pose proof (Z.pow_nonneg 2 (Z.of_nat (n - 1 - i))). lia.
  - apply Z.pow_lt_mono_r; lia.
Qed.

Lemma nth_pow2s n l : (l < n)%nat -> nth l (pow2s n) 0 = 2 ^ Z.of_nat (n - 1 - l).
Proof.
  intros Hl. unfold pow2s.
  rewrite (nth_indep _ 0 (2 ^ Z.of_nat (n - 1 - 0)))
    by (rewrite length_map, length_seq; exact Hl).
  rewrite (map_nth (fun i => 2 ^ Z.of_nat (n - 1 - i)) (seq 0 n) 0%nat l).
  now rewrite seq_nth by exact Hl.
Qed.

Lemma Zsum_weights row :
  Zsum (map (fun l => nth l row 0 * 2 ^ Z.of_nat (length row - 1 - l))
            (seq 0 (length row)))
  = binary_value row.
Proof.
  induction row as [|b r IH]; [reflexivity|].
  rewrite binary_value_cons.
  cbn [length seq map nth].
  rewrite <- seq_shift, map_map.
  change (Zsum (?x :: ?l)) with (x + Zsum l).
  replace (S (length r) - 1 - 0)%nat with (length r) by lia.
  f_equal. rewrite <- IH. f_equal.
  apply map_ext. intros l. cbn [nth]. do 3 f_equal. lia.
Qed.

Lemma matmul_column m n a b :
  matmul (mkTensor t_int32 [m; n] a) (mkTensor t_int32 [n; 1%nat] b)
  = Ok (mkTensor t_int32 [m; 1%nat]
          (map (fun i => fit t_int32
                  (Zsum (map (fun l => nth (i * n + l) a 0 * nth l b 0) (seq 0 n))))
               (seq 0 m))).
Proof.
  unfold matmul. cbn [t_shape t_dtype t_data].
  rewrite Nat.eqb_refl. cbn [dtype_eqb andb seq map].
  rewrite flat_map_singleton. do 2 f_equal.
  apply map_ext. intros i. do 2 f_equal.
  apply map_ext. intros l. now rewrite Nat.mul_1_r, Nat.add_0_r.
Qed.

Lemma samples_to_decimal_rows sd x n rows :
  (n <= 31)%nat ->
  bit_rows n rows ->
  holds x [length rows; n] (concat rows) ->
  samples_to_decimal sd x (Z.of_nat n)
  = Ok (mkTensor t_int32 [length rows] (map binary_value rows)).
Proof.
  intros Hn Hrows Hx. unfold samples_to_decimal.
  assert (Hlen : Forall (fun r => length r = n) rows)
    by (eapply Forall_impl; [|exact Hrows]; now intros r [H _]).
  rewrite (cast_int32_holds sd x _ _ Hx).
  2:{ apply Forall_concat. eapply Forall_impl; [|exact Hrows].
      intros r [_ Hr]. eapply Forall_impl; [|exact Hr].
      intros z [->| ->]; lia. }
  cbn [bind]. rewrite rpow_qrange by exact Hn.
  unfold unsqueeze. cbn [t_shape t_dtype t_data length Nat.leb firstn skipn app bind].
  rewrite matmul_column. cbn [bind].
  unfold squeeze. cbn [t_shape t_dtype t_data nth_error firstn skipn app].
  do 2 f_equal.
  rewrite <- (map_seq_nth binary_value []).
  apply map_ext_in. intros i Hi. apply in_seq in Hi.
  assert (Hi' : length (nth i rows []) = n /\ Forall is_bit (nth i rows [])).
  { unfold bit_rows in Hrows. rewrite Forall_forall in Hrows.
    apply Hrows. apply nth_In. lia. }
  destruct Hi' as [Hln Hbits].
  replace (Zsum _) with (binary_value (nth i rows [])).
  - apply fit_int32_small. pose proof (binary_value_range _ Hbits) as Hr.
    rewrite Hln in Hr.
    assert (2 ^ Z.of_nat n <= 2 ^ 31) by (apply Z.pow_le_mono_r; lia). lia.
  - rewrite <- Zsum_weights, Hln. f_equal.
    apply map_ext_in. intros l Hl. apply in_seq in Hl.
    rewrite nth_concat_rows, nth_pow2s by (assumption || lia). reflexivity.
Qed.

Lemma bits_of_S k v :
  bits_of (S k) v = Z.shiftr v (Z.of_nat k) mod 2 :: bits_of k v.
Proof.
  unfold bits_of. cbn [seq map].
  replace (S k - 1 - 0)%nat with k by lia. f_equal.
  rewrite <- seq_shift, map_map. apply map_ext. intros i.
  do 3 f_equal. lia.
Qed.

Lemma length_bits_of n v : length (bits_of n v) = n.
Proof. unfold bits_of. now rewrite length_map, length_seq. Qed.

Lemma bits_of_is_bit n v : Forall is_bit (bits_of n v).
Proof.
  unfold bits_of. apply Forall_map, Forall_forall. intros i _.
  unfold is_bit.
  pose proof (Z.mod_pos_bound (Z.shiftr v (Z.of_nat (n - 1 - i))) 2). lia.
Qed.

Lemma shiftr_add_high b x k s :
  0 <= s < k ->
  Z.shiftr (b * 2 ^ k + x) s mod 2 = Z.shiftr x s mod 2.
Proof.
  intros Hs. rewrite !Z.shiftr_div_pow2 by lia.
  replace (b * 2 ^ k + x) with (x + (b * 2 ^ (k - s)) * 2 ^ s).
  - rewrite Z.div_add by (apply Z.pow_nonzero; lia).
    replace (b * 2 ^ (k - s)) with ((b * 2 ^ (k - s - 1)) * 2).
    + apply Z.mod_add. lia.
    + rewrite <- Z.mul_assoc. f_equal.
      rewrite Z.mul_comm, <- Z.pow_succ_r by lia. f_equal. lia.
  - rewrite <- Z.mul_assoc, <- Z.pow_add_r by lia.
    replace (k - s + s) with k by lia. lia.
Qed.

Lemma bits_of_add_high k b x :
  bits_of k (b * 2 ^ Z.of_nat k + x) = bits_of k x.
Proof.
  unfold bits_of. apply map_ext_in. intros i Hi. apply in_seq in Hi.
  apply shiftr_add_high. lia.
Qed.

Lemma bits_of_binary_value row :
  Forall is_bit row -> bits_of (length row) (binary_value row) = row.
Proof.
  induction 1 as [|b r Hb Hr IH]; [reflexivity|].
  cbn [length]. rewrite bits_of_S, binary_value_cons, bits_of_add_high, IH.
  f_equal. pose proof (binary_value_range r Hr) as Hrange.
  rewrite Z.shiftr_div_pow2 by lia.
  rewrite Z.add_comm, Z.div_add by (apply Z.pow_nonzero; lia).
  rewrite Z.div_small by exact Hrange.
  destruct Hb; subst; reflexivity.
Qed.

Lemma binary_value_bits_of n v :
  0 <= v < 2 ^ Z.of_nat n -> binary_value (bits_of n v) = v.
Proof.
  revert v. induction n as [|k IH]; intros v Hv.
  - cbn in *. lia.
  - rewrite bits_of_S, binary_value_cons, length_bits_of.
    rewrite Nat2Z.inj_succ, Z.pow_succ_r in Hv by lia.
    pose proof (Z.pow_pos_nonneg 2 (Z.of_nat k)) as Hpos.
    assert (Hlow : bits_of k v = bits_of k (v mod 2 ^ Z.of_nat k)).
    { rewrite (Z.div_mod v (2 ^ Z.of_nat k)) at 1 by lia.
      now rewrite (Z.mul_comm (2 ^ Z.of_nat k)), bits_of_add_high. }
    rewrite Hlow, IH by (apply Z.mod_pos_bound; lia).
    rewrite Z.shiftr_div_pow2 by lia.
    assert (0 <= v / 2 ^ Z.of_nat k < 2).
    { split; [apply Z.div_pos; lia|apply Z.div_lt_upper_bound; lia]. }
    rewrite (Z.mod_small (v / 2 ^ Z.of_nat k)) by lia.
    rewrite (Z.div_mod v (2 ^ Z.of_nat k)) at 3 by lia. lia.
Qed.

Lemma samples_to_binary_vector sd x n d :
  (n <= 31)%nat ->
  Forall (fun z => - 2 ^ 31 <= z < 2 ^ 31) d ->
  holds x [length d] d ->
  samples_to_binary sd x (Z.of_nat n)
  = Ok (mkTensor t_int32 [length d; n] (flat_map (bits_of n) d)).
Proof.
  intros Hn Hd Hx. unfold samples_to_binary.
  rewrite (cast_int32_holds sd x _ _ Hx Hd). cbn [bind].
  rewrite arange_qrange by exact Hn.
  unfold to, colon_None, unsqueeze, rshift, remainder.
  cbn [t_dtype t_shape t_data dtype_eqb length Nat.leb firstn skipn app bind
       promote_types].
  do 2 f_equal. rewrite flat_map_concat_map, concat_map, map_map.
  rewrite <- flat_map_concat_map. apply flat_map_ext. intros v.
  unfold bits_of. now rewrite !map_map.
Qed.

Ltac bit_rows_tac :=
  unfold bit_rows;
  repeat (apply Forall_cons || apply Forall_nil || split);
  try reflexivity; unfold is_bit; auto.

(** C8 (amended to at most 31 qubits). For 0 <= nqubits <= 31 and a bit
    matrix [x] of shape (m, nqubits), [samples_to_decimal] returns the
    int32 vector of the base-2 values of the rows (first column most
    significant) and [samples_to_binary] maps that vector back to the
    matrix; and for a vector [y] of integers 0 <= d < 2^nqubits,
    [samples_to_decimal] after [samples_to_binary] gives the vector back. *)
Theorem samples_decimal_binary_roundtrip
    (sd : torch_dtype) (nqubits : Z)
    (x : cast_input Z ndarray) (rows : list (list Z))
    (y : cast_input Z ndarray) (d : list Z) :
  0 <= nqubits <= 31 ->
  bit_rows (Z.to_nat nqubits) rows ->
  holds x [length rows; Z.to_nat nqubits] (concat rows) ->
  Forall (fun v => 0 <= v < 2 ^ nqubits) d ->
  holds y [length d] d ->
  samples_to_decimal sd x nqubits
    = Ok (mkTensor t_int32 [length rows] (map binary_value rows))
  /\ (let! dec := samples_to_decimal sd x nqubits in
      samples_to_binary sd (XTensor dec) nqubits)
    = Ok (mkTensor t_int32 [length rows; Z.to_nat nqubits] (concat rows))
  /\ (let! bin := samples_to_binary sd y nqubits in
      samples_to_decimal sd (XTensor bin) nqubits)
    = Ok (mkTensor t_int32 [length d] d).
Proof.
  intros Hq Hrows Hx Hd Hy.
  remember (Z.to_nat nqubits) as n eqn:En.
  assert (Hn : (n <= 31)%nat) by lia.
  assert (Eq : nqubits = Z.of_nat n) by lia.
  rewrite Eq in *. clear Eq En Hq.
  assert (Hpow : 2 ^ Z.of_nat n <= 2 ^ 31) by (apply Z.pow_le_mono_r; lia).
  assert (Hdec := samples_to_decimal_rows sd x n rows Hn Hrows Hx).
  split; [exact Hdec|]. split.
  - rewrite Hdec. cbn [bind].
    rewrite (samples_to_binary_vector sd _ n (map binary_value rows) Hn).
    + rewrite length_map. do 2 f_equal.
      rewrite flat_map_concat_map, map_map. f_equal.
      rewrite <- (map_id rows) at 2. apply map_ext_in. intros r Hr.
      unfold bit_rows in Hrows. rewrite Forall_forall in Hrows.
      destruct (Hrows r Hr) as [<- Hbits].
      now apply bits_of_binary_value.
    + apply Forall_map. eapply Forall_impl; [|exact Hrows].
      intros r [Hl Hbits]. pose proof (binary_value_range r Hbits).
      rewrite Hl in *. lia.
    + cbn. now rewrite length_map.
  - rewrite (samples_to_binary_vector sd y n d Hn); [|
      eapply Forall_impl; [|exact Hd]; cbv beta; intros; lia | exact Hy].
    cbn [bind]. rewrite flat_map_concat_map.
    replace (length d) with (length (map (bits_of n) d)) at 1
      by apply length_map.
    rewrite (samples_to_decimal_rows sd _ n (map (bits_of n) d) Hn).
    + rewrite length_map, map_map. do 2 f_equal.
      rewrite <- (map_id d) at 2. apply map_ext_in. intros v Hv.
      rewrite Forall_forall in Hd. now apply binary_value_bits_of, Hd.
    + apply Forall_map, Forall_forall. intros v _.
      split; [apply length_bits_of|apply bits_of_is_bit].
    + cbn. split; reflexivity.
Qed.

Lemma samples_decimal_binary_roundtrip_witness :
  let x := XOther (mkArray [3%nat; 3%nat] [1; 0; 1;  0; 1; 1;  1; 1; 1]) in
  let y := XTensor (mkTensor t_int64 [3%nat] [5; 3; 7]) in
  samples_to_decimal t_complex128 x 3
    = Ok (mkTensor t_int32 [3%nat] [5; 3; 7])
  /\ (let! dec := samples_to_decimal t_complex128 x 3 in
      samples_to_binary t_complex128 (XTensor dec) 3)
    = Ok (mkTensor t_int32 [3%nat; 3%nat] [1; 0; 1;  0; 1; 1;  1; 1; 1])
  /\ (let! bin := samples_to_binary t_complex128 y 3 in
      samples_to_decimal t_complex128 (XTensor bin) 3)
    = Ok (mkTensor t_int32 [3%nat] [5; 3; 7]).
Proof.
  intros x y.
  apply (samples_decimal_binary_roundtrip t_complex128 3
           x [[1; 0; 1]; [0; 1; 1]; [1; 1; 1]] y [5; 3; 7]).
  - lia.
  - bit_rows_tac.
  - split; reflexivity.
  - repeat constructor; lia.
  - split; reflexivity.
Defined.

(** C8 as stated, for every number of qubits, fails at 32 qubits: the row
    1,0,...,0 has base-2 value 2^31, which no int32 holds; the int32
    product returns -2^31. *)
Lemma samples_to_decimal_overflows_at_32 :
  let rows := [1 :: repeat 0 31] in
  let x := XOther (mkArray [1%nat; 32%nat] (concat rows)) in
  bit_rows 32 rows
  /\ holds x [length rows; 32%nat] (concat rows)
  /\ samples_to_decimal t_complex128 x 32
     = Ok (mkTensor t_int32 [1%nat] [- 2 ^ 31])
  /\ samples_to_decimal t_complex128 x 32
     <> Ok (mkTensor t_int32 [length rows] (map binary_value rows)).
Proof.
  intros rows x. split; [|split; [|split]].
  - unfold rows. cbn [repeat]. bit_rows_tac.
  - split; reflexivity.
  - vm_compute. reflexivity.
  - vm_compute. discriminate.
Qed.

(** ** Properties of [cast] and the density-matrix norm *)

Lemma dtype_eqb_refl d : dtype_eqb d d = true.
Proof. now destruct d. Qed.

Lemma dtype_eqb_eq a b : dtype_eqb a b = true -> a = b.
Proof. destruct a, b; simpl; congruence. Qed.

Lemma forallb_is_Tensor_inl {A O : Type} (ts : list (Tensor A)) :
  forallb (@is_Tensor A O) (map inl ts) = true.
Proof. induction ts as [|t ts IH]; simpl; auto. Qed.

Lemma tensors_of_inl {A O : Type} (ts : list (Tensor A)) :
  @tensors_of A O (map inl ts) = ts.
Proof. induction ts as [|t ts IH]; simpl; congruence. Qed.

Section CastProperties.

Context {A O : Type}.
Variable convert : torch_dtype -> torch_dtype -> A -> A.
Variable tensor_contents :
  cast_input A O -> torch_dtype -> result (list nat * list A).
Variable self_dtype : torch_dtype.

Lemma to_same_dtype (t : Tensor A) : to convert t (t_dtype t) = t.
Proof. unfold to. now rewrite dtype_eqb_refl. Qed.

Lemma t_dtype_to (t : Tensor A) d : t_dtype (to convert t d) = d.
Proof.
  unfold to. destruct (dtype_eqb (t_dtype t) d) eqn:E; [|reflexivity].
  now apply dtype_eqb_eq.
Qed.

Lemma t_dtype_torch_tensor x d r :
  torch_tensor tensor_contents x d = Ok r -> t_dtype r = d.
Proof.
  unfold torch_tensor. destruct (tensor_contents x d); simpl; [|discriminate].
  now intros [= <-].
Qed.

Lemma result_type_same d (l : list (Tensor A)) :
  Forall (fun t => t_dtype t = d) l -> result_type d l = d.
Proof.
  unfold result_type. induction 1 as [|t l Ht _ IH]; simpl; [reflexivity|].
  unfold promote_types. now rewrite Ht, dtype_eqb_refl.
Qed.

(** Stacking tensors of one dtype and one shape keeps their dtype and
    their entries. *)
Lemma stack_same_dtype (t0 : Tensor A) (rest : list (Tensor A)) :
  Forall (fun t => t_dtype t = t_dtype t0 /\ t_shape t = t_shape t0) rest ->
  stack convert (t0 :: rest)
  = Ok (mkTensor (t_dtype t0) (S (length rest) :: t_shape t0)
                 (flat_map t_data (t0 :: rest))).
Proof.
  intros H. unfold stack.
  assert (Hshape : forallb (fun t => shape_eqb (t_shape t) (t_shape t0)) rest = true).
  { apply forallb_forall. rewrite Forall_forall in H. intros t Ht.
    destruct (H t Ht) as [_ ->]. unfold shape_eqb.
    now destruct (list_eq_dec Nat.eq_dec (t_shape t0) (t_shape t0)). }
  rewrite Hshape, result_type_same
    by (eapply Forall_impl; [|exact H]; now intros t [Ht _]).
  do 2 f_equal.
  cbn [flat_map]. rewrite to_same_dtype. f_equal.
  clear Hshape. induction H as [|t l [Ht _] _ IH]; [reflexivity|].
  cbn [flat_map]. rewrite IH. f_equal.
  rewrite <- Ht. now rewrite to_same_dtype.
Qed.

Lemma cast_list_of_tensors (ts : list (Tensor A)) dtype d copy :
  resolve_dtype self_dtype dtype = Ok d ->
  cast convert tensor_contents self_dtype (XList (map inl ts)) dtype copy
  = stack convert ts.
Proof.
  intros Hd. unfold cast. rewrite Hd. cbn [bind].
  rewrite forallb_is_Tensor_inl, tensors_of_inl.
  destruct (stack convert ts); simpl; [|reflexivity].
  now destruct copy.
Qed.

Lemma cast_tensor (t : Tensor A) dtype d copy :
  resolve_dtype self_dtype dtype = Ok d ->
  cast convert tensor_contents self_dtype (XTensor t) dtype copy
  = Ok (to convert t d).
Proof. intros Hd. unfold cast. rewrite Hd. now destruct copy. Qed.

Lemma cast_non_tensor (x : cast_input A O) dtype d copy :
  resolve_dtype self_dtype dtype = Ok d ->
  match x with
  | XTensor _ => False
  | XList l => forallb is_Tensor l = false
  | XOther _ => True
  end ->
  cast convert tensor_contents self_dtype x dtype copy
  = torch_tensor tensor_contents x d.
Proof.
  intros Hd Hx. unfold cast. rewrite Hd. cbn [bind].
  destruct x as [t|l|o]; [contradiction|rewrite Hx|];
    (destruct (torch_tensor tensor_contents _ d); simpl; [|reflexivity];
     now destruct copy).
Qed.

End CastProperties.

(** C9 as stated fails: the stack of a uint8 tensor and an int8 tensor
    has dtype int16, the promoted dtype, which is the original dtype of
    neither element (and not the requested int32 either). *)
Lemma cast_list_promotes_mixed_dtypes :
  cast_Z t_complex128
    (XList [inl (mkTensor t_uint8 [1%nat] [200]);
            inl (mkTensor t_int8 [1%nat] [-3])])
    (DStr "int32") false
  = Ok (mkTensor t_int16 [2%nat; 1%nat] [200; -3])
  /\ ~ (exists r,
          cast_Z t_complex128
            (XList [inl (mkTensor t_uint8 [1%nat] [200]);
                    inl (mkTensor t_int8 [1%nat] [-3])])
            (DStr "int32") false = Ok r
          /\ (t_dtype r = t_uint8 \/ t_dtype r = t_int8)).
Proof.
  split; [reflexivity|].
  intros (r & Hr & Hd). change (Ok (mkTensor t_int16 [2%nat; 1%nat] [200; -3])
                                  = Ok r) in Hr.
  injection Hr as <-. cbn [t_dtype] in Hd. destruct Hd; discriminate.
Qed.

Section StackProperties.

Context {A : Type}.
Variable convert : torch_dtype -> torch_dtype -> A -> A.

Lemma stack_same_shape (t0 : Tensor A) (rest : list (Tensor A)) :
  Forall (fun t => t_shape t = t_shape t0) rest ->
  stack convert (t0 :: rest)
  = Ok (mkTensor (result_type (t_dtype t0) rest)
          (S (length rest) :: t_shape t0)
          (flat_map (fun t => t_data (to convert t
                                        (result_type (t_dtype t0) rest)))
                    (t0 :: rest))).
Proof.
  intros H. unfold stack.
  assert (Hshape : forallb (fun t => shape_eqb (t_shape t) (t_shape t0)) rest
                   = true).
  { apply forallb_forall. intros t Ht. rewrite Forall_forall in H.
    rewrite (H t Ht). unfold shape_eqb.
    now destruct (list_eq_dec Nat.eq_dec (t_shape t0) (t_shape t0)). }
  now rewrite Hshape.
Qed.

Lemma t_shape_to (t : Tensor A) d : t_shape (to convert t d) = t_shape t.
Proof. unfold to. now destruct (dtype_eqb (t_dtype t) d). Qed.

Lemma flat_map_to_same_dtype (d : torch_dtype) (l : list (Tensor A)) :
  Forall (fun t => t_dtype t = d) l ->
  flat_map (fun t => t_data (to convert t d)) l = flat_map t_data l.
Proof.
  induction 1 as [|t l Ht _ IH]; [reflexivity|].
  cbn [flat_map]. rewrite IH. f_equal.
  rewrite <- Ht. now rewrite to_same_dtype.
Qed.

End StackProperties.

(** C9 (amended). [cast] on a non-empty list of tensors of one shape
    returns [torch.stack] of the list, whatever dtype was requested: the
    result has one more leading axis and the promoted dtype of the
    elements, each element converted to it; for a list whose elements
    have one dtype, that is the dtype of the result and the entries are
    the elements' own.  A single tensor is converted with [to] and has the
    requested dtype and its own shape; any other input becomes the tensor
    that [torch.tensor] builds for the requested dtype, with that dtype,
    or raises its error; and [dtype=None] stands for the backend's
    default dtype. *)
Theorem cast_stacks_lists_with_promoted_dtype
    {A O : Type}
    (convert : torch_dtype -> torch_dtype -> A -> A)
    (tensor_contents : cast_input A O -> torch_dtype -> result (list nat * list A))
    (self_dtype : torch_dtype)
    (dtype : dtype_arg) (d : torch_dtype) (copy : bool)
    (t0 : Tensor A) (rest : list (Tensor A))
    (u0 : Tensor A) (us : list (Tensor A))
    (t : Tensor A) (x : cast_input A O) :
  resolve_dtype self_dtype dtype = Ok d ->
  Forall (fun t' => t_shape t' = t_shape t0) rest ->
  Forall (fun u => t_dtype u = t_dtype u0 /\ t_shape u = t_shape u0) us ->
  match x with
  | XTensor _ => False
  | XList l => forallb is_Tensor l = false
  | XOther _ => True
  end ->
  let promoted := result_type (t_dtype t0) rest in
  cast convert tensor_contents self_dtype (XList (map inl (t0 :: rest))) dtype copy
    = Ok (mkTensor promoted (S (length rest) :: t_shape t0)
            (flat_map (fun t' => t_data (to convert t' promoted)) (t0 :: rest)))
  /\ cast convert tensor_contents self_dtype (XList (map inl (u0 :: us))) dtype copy
    = Ok (mkTensor (t_dtype u0) (S (length us) :: t_shape u0)
            (flat_map t_data (u0 :: us)))
  /\ (cast convert tensor_contents self_dtype (XTensor t) dtype copy
        = Ok (to convert t d)
      /\ t_dtype (to convert t d) = d
      /\ t_shape (to convert t d) = t_shape t)
  /\ (forall shape data,
        tensor_contents x d = Ok (shape, data) ->
        cast convert tensor_contents self_dtype x dtype copy
        = Ok (mkTensor d shape data))
  /\ (forall e,
        tensor_contents x d = Raise e ->
        cast convert tensor_contents self_dtype x dtype copy = Raise e)
  /\ resolve_dtype self_dtype DNone = Ok self_dtype.
Proof.
  intros Hd Hrest Hus Hx promoted.
  split; [|split; [|split; [|split; [|split]]]].
  - rewrite (cast_list_of_tensors _ _ _ _ _ d copy Hd).
    now apply stack_same_shape.
  - rewrite (cast_list_of_tensors _ _ _ _ _ d copy Hd).
    now apply stack_same_dtype.
  - split; [now apply cast_tensor|]. split; [apply t_dtype_to|].
    apply t_shape_to.
  - intros shape data Hc.
    rewrite (cast_non_tensor _ _ _ x dtype d copy Hd Hx).
    unfold torch_tensor. now rewrite Hc.
  - intros e Hc.
    rewrite (cast_non_tensor _ _ _ x dtype d copy Hd Hx).
    unfold torch_tensor. now rewrite Hc.
  - reflexivity.
Qed.

Lemma cast_stacks_lists_with_promoted_dtype_witness :
  let t0 := mkTensor t_uint8 [2%nat] [200; 2] in
  let t1 := mkTensor t_int8 [2%nat] [-3; 4] in
  let u0 := mkTensor t_int64 [2%nat] [1; 2] in
  let u1 := mkTensor t_int64 [2%nat] [3; 4294967297] in
  let t := mkTensor t_int64 [1%nat] [4294967297] in
  let x := XOther (mkArray [2%nat] [7; 8]) in
  let promoted := result_type t_uint8 [t1] in
  cast_Z t_complex128 (XList (map inl [t0; t1])) (DStr "int32") false
    = Ok (mkTensor promoted [2%nat; 2%nat]
            (flat_map (fun t' => t_data (to convert_Z t' promoted)) [t0; t1]))
  /\ cast_Z t_complex128 (XList (map inl [u0; u1])) (DStr "int32") false
    = Ok (mkTensor t_int64 [2%nat; 2%nat] (flat_map t_data [u0; u1]))
  /\ (cast_Z t_complex128 (XTensor t) (DStr "int32") false
        = Ok (to convert_Z t t_int32)
      /\ t_dtype (to convert_Z t t_int32) = t_int32
      /\ t_shape (to convert_Z t t_int32) = [1%nat])
  /\ (forall shape data,
        tensor_contents_Z x t_int32 = Ok (shape, data) ->
        cast_Z t_complex128 x (DStr "int32") false
        = Ok (mkTensor t_int32 shape data))
  /\ (forall e,
        tensor_contents_Z x t_int32 = Raise e ->
        cast_Z t_complex128 x (DStr "int32") false = Raise e)
  /\ resolve_dtype t_complex128 DNone = Ok t_complex128.
Proof.
  intros t0 t1 u0 u1 t x.
  apply (cast_stacks_lists_with_promoted_dtype convert_Z tensor_contents_Z
           t_complex128 (DStr "int32") t_int32 false
           t0 [t1] u0 [u1] t x).
  - reflexivity.
  - repeat constructor.
  - repeat constructor.
  - exact I.
Defined.

(** The values of that instance: the promoted dtype is int16, the int64
    list keeps int64 (and a value that int32 cannot hold), the single
    tensor is wrapped to int32 and the array becomes an int32 tensor. *)
Example cast_promoted_values :
  cast_Z t_complex128
    (XList [inl (mkTensor t_uint8 [2%nat] [200; 2]);
            inl (mkTensor t_int8 [2%nat] [-3; 4])]) (DStr "int32") false
  = Ok (mkTensor t_int16 [2%nat; 2%nat] [200; 2; -3; 4])
  /\ cast_Z t_complex128
       (XList [inl (mkTensor t_int64 [2%nat] [1; 2]);
               inl (mkTensor t_int64 [2%nat] [3; 4294967297])])
       (DStr "int32") false
     = Ok (mkTensor t_int64 [2%nat; 2%nat] [1; 2; 3; 4294967297])
  /\ cast_Z t_complex128 (XTensor (mkTensor t_int64 [1%nat] [4294967297]))
       (DStr "int32") false
     = Ok (mkTensor t_int32 [1%nat] [1])
  /\ cast_Z t_complex128 (XOther (mkArray [2%nat] [7; 8])) (DStr "int32") false
     = Ok (mkTensor t_int32 [2%nat] [7; 8]).
Proof. repeat split. Qed.

(** Python lists with the requested dtype left unapplied and applied. *)
Example cast_list_example :
  cast_Z t_complex128
    (XList [inl (mkTensor t_int64 [1%nat] [300]); inl (mkTensor t_int64 [1%nat] [5])])
    (DPyType "complex") true
  = Ok (mkTensor t_int64 [2%nat; 1%nat] [300; 5])
  /\ cast_Z t_complex128 (XTensor (mkTensor t_int64 [1%nat] [300])) (DStr "int32") true
  = Ok (mkTensor t_int32 [1%nat] [300])
  /\ cast_Z t_complex128 (XList []) DNone false = Raise RuntimeError
  /\ cast_Z t_complex128 (XOther (mkArray [1%nat] [1])) (DPyType "bool") false
  = Raise KeyError.
Proof. repeat split. Qed.

Section NormProperties.

Context {A O : Type}.
Variable convert : torch_dtype -> torch_dtype -> A -> A.
Variable tensor_contents :
  cast_input A O -> torch_dtype -> result (list nat * list A).
Variable self_dtype : torch_dtype.
Variable zero : A.
Variable add : A -> A -> A.
Variable torch_norm : Tensor A -> norm_order -> result (Tensor A).




End NormProperties.



(** The values of that instance: the trace 3 - 5, the cube root of
    27 + 1 + 64 + 125, the square root of 9 + 1 + 16 + 25, the sum of the
    absolute values and the largest of them. *)
Example norm_density_matrix_values :
  let m := XTensor (mkTensor t_int64 [2%nat; 2%nat]
                      [Integer 3; Integer 1; Integer 4; Integer (-5)]) in
  let norm := calculate_norm_density_matrix_num t_complex128 in
  norm m (OrdStr "nuc") = Ok (mkTensor t_complex128 [] [Integer (-2)])
  /\ norm m (OrdNum 3) = Ok (mkTensor t_float64 [] [Root 3 217])
  /\ norm m (OrdStr "fro") = Ok (mkTensor t_float64 [] [Root 2 51])
  /\ norm m (OrdNum 2) = Ok (mkTensor t_float64 [] [Root 2 51])
  /\ norm m (OrdNum 1) = Ok (mkTensor t_float64 [] [Integer 13])
  /\ norm m OrdInf = Ok (mkTensor t_float64 [] [Integer 5])
  /\ norm (XTensor (mkTensor t_int64 [2%nat; 2%nat]
                      [Integer 3; Integer 0; Integer 4; Integer 0]))
          (OrdNum 2)
     = Ok (mkTensor t_float64 [] [Integer 5]).
Proof. repeat split. Qed.

(** * Properties of the gate algebra and of fusion *)

Lemma qubits_eqb_eq (qs ps : list nat) : qubits_eqb qs ps = true <-> qs = ps.
Proof.
  unfold qubits_eqb. destruct (list_eq_dec Nat.eq_dec qs ps); split;
    congruence.
Qed.

Section Products.

Context {R : Type} {SR : Scalar R}.

Lemma nth_map_seq {X : Type} (f : nat -> X) n i d :
  (i < n)%nat -> nth i (map f (seq 0 n)) d = f i.
Proof.
  intros Hi. rewrite (nth_indep _ d (f 0%nat)) by now rewrite length_map, length_seq.
  rewrite (map_nth f (seq 0 n) 0%nat i), seq_nth by exact Hi. reflexivity.
Qed.

(** The entries of a product: row times column. *)
Lemma entry_mmul (A B : matrix R) i j :
  (i < nrows A)%nat -> (j < ncols B)%nat ->
  entry (mmul A B) i j
  = sum_list (fun k => (entry A i k * entry B k j)%S) (seq 0 (nrows B)).
Proof.
  intros Hi Hj. unfold entry at 1, mmul.
  rewrite (nth_map_seq _ _ _ [] Hi).
  now rewrite (nth_map_seq _ _ _ s0 Hj).
Qed.

Lemma dim_ncols n (U : matrix R) : dim n n U -> ncols U = n /\ nrows U = n.
Proof.
  intros [Hl Hr]. unfold ncols, nrows. split; [|exact Hl].
  destruct U as [|row U]; [exact Hl|].
  now apply Forall_cons_iff in Hr as [Hrow _].
Qed.

Lemma dim_mmul n (A B : matrix R) :
  dim n n A -> dim n n B -> dim n n (mmul A B).
Proof.
  intros HA HB. destruct (dim_ncols n A HA) as [_ Hra].
  destruct (dim_ncols n B HB) as [Hcb _].
  unfold mmul, dim. rewrite Hra, Hcb. split.
  - now rewrite length_map, length_seq.
  - apply Forall_forall. intros row Hrow.
    apply in_map_iff in Hrow as (i & <- & _).
    now rewrite length_map, length_seq.
Qed.

Lemma dim_2_2 (U : matrix R) :
  dim 2 2 U -> exists a b c d, U = [[a; b]; [c; d]].
Proof.
  intros [Hl Hr].
  destruct U as [|r0 [|r1 [|r2 U]]]; try discriminate.
  apply Forall_cons_iff in Hr as [L0 Hr].
  apply Forall_cons_iff in Hr as [L1 _].
  destruct r0 as [|a [|b [|? ?]]]; try discriminate.
  destruct r1 as [|c [|d [|? ?]]]; try discriminate.
  now exists a, b, c, d.
Qed.

Lemma dim_4_4 (U : matrix R) :
  dim 4 4 U ->
  exists a0 a1 a2 a3 b0 b1 b2 b3 c0 c1 c2 c3 d0 d1 d2 d3,
    U = [[a0; a1; a2; a3]; [b0; b1; b2; b3];
         [c0; c1; c2; c3]; [d0; d1; d2; d3]].
Proof.
  intros [Hl Hr].
  destruct U as [|r0 [|r1 [|r2 [|r3 [|r4 U]]]]]; try discriminate.
  apply Forall_cons_iff in Hr as [L0 Hr].
  apply Forall_cons_iff in Hr as [L1 Hr].
  apply Forall_cons_iff in Hr as [L2 Hr].
  apply Forall_cons_iff in Hr as [L3 _].
  destruct r0 as [|a0 [|a1 [|a2 [|a3 [|? ?]]]]]; try discriminate.
  destruct r1 as [|b0 [|b1 [|b2 [|b3 [|? ?]]]]]; try discriminate.
  destruct r2 as [|c0 [|c1 [|c2 [|c3 [|? ?]]]]]; try discriminate.
  destruct r3 as [|d0 [|d1 [|d2 [|d3 [|? ?]]]]]; try discriminate.
  now exists a0, a1, a2, a3, b0, b1, b2, b3, c0, c1, c2, c3, d0, d1, d2, d3.
Qed.

End Products.

(** ** The model against the assertions of test_fusion.py *)

(** test_from_queue_single_group. *)
Example from_queue_single_group {R : Type} {SR : Scalar R} (h : R) :
  let queue := [H h 0; X 1; CZ 0 1] in
  exists group,
    from_queue queue = [group]
    /\ gates0 group = [[H h 0]; []]
    /\ gates1 group = [[X 1]; []]
    /\ two_qubit_gates group = [CZ 0 1].
Proof. intros queue. eexists. repeat split. Qed.

(** test_from_queue_two_groups; [rx] is the matrix of the controlled RX
    gate and [y] the matrix of Y. *)
Example from_queue_two_groups {R : Type} {SR : Scalar R} (h : R) (rx y : matrix R) :
  let crx := MatrixGate "RX" [1; 2]%nat rx in
  let queue := [X 0; H h 1; crx; H h 2; MatrixGate "Y" [1%nat] y; H h 0] in
  exists group1 group2,
    from_queue queue = [group1; group2]
    /\ gates0 group1 = [[X 0; H h 0]]
    /\ gates1 group1 = [[H h 1]]
    /\ two_qubit_gates group1 = []
    /\ gates0 group2 = [[]; [MatrixGate "Y" [1%nat] y]]
    /\ gates1 group2 = [[]; [H h 2]]
    /\ two_qubit_gates group2 = [crx].
Proof. intros crx queue. do 2 eexists. repeat split. Qed.

(** test_one_qubit_gate_multiplication and
    test_two_qubit_gate_multiplication. *)
Example gate_multiplication {R : Type} {SR : Scalar R} (h c s e : R) :
  product_unitary (X 0) (H h 0) = Ok (mmul mX (mH h))
  /\ product_unitary (H h 0) (X 0) = Ok (mmul (mH h) mX)
  /\ product_unitary (fSim c s e 0 1) (SWAP 0 1)
     = Ok (mmul (mfSim c s e) mSWAP)
  /\ matmul_gate (fSim c s e 0 1) (SWAP 0 2) = Raise NotImplementedError.
Proof. repeat split. Qed.

Ltac matrix_eq :=
  repeat match goal with
         | |- _ :: _ = _ :: _ => f_equal
         end;
  try ring.

(** ** The fused gate *)

Section FusedGate.

Context {R : Type} {SR : Scalar R} {ER : ExactScalar R}.

Add Ring scalar_ring_fused : (@scalar_ring R SR ER).

(** Five gates on two qubits, one-qubit gates before and after a
    two-qubit gate, fuse to one gate whose matrix multiplies theirs in
    reverse order of application. *)
Lemma fused_layers (a0 a1 b0 b1 m : matrix R) (n0 n1 n2 n3 n4 : string) :
  dim 2 2 a0 -> dim 2 2 a1 -> dim 4 4 m -> dim 2 2 b0 -> dim 2 2 b1 ->
  exists group gate,
    from_queue [MatrixGate n0 [0%nat] a0; MatrixGate n1 [1%nat] a1;
                MatrixGate n2 [0; 1]%nat m;
                MatrixGate n3 [0%nat] b0; MatrixGate n4 [1%nat] b1]
    = [group]
    /\ calculate group = [gate]
    /\ qubits gate = [0; 1]%nat
    /\ unitary gate = mmul (mmul (kron b0 b1) m) (kron a0 a1).
Proof.
  intros Ha0 Ha1 Hm Hb0 Hb1.
  destruct (dim_2_2 a0 Ha0) as (p0 & p1 & p2 & p3 & ->).
  destruct (dim_2_2 a1 Ha1) as (q0 & q1 & q2 & q3 & ->).
  destruct (dim_2_2 b0 Hb0) as (u0 & u1 & u2 & u3 & ->).
  destruct (dim_2_2 b1 Hb1) as (v0 & v1 & v2 & v3 & ->).
  destruct (dim_4_4 m Hm)
    as (m00 & m01 & m02 & m03 & m10 & m11 & m12 & m13
        & m20 & m21 & m22 & m23 & m30 & m31 & m32 & m33 & ->).
  do 2 eexists. split; [reflexivity|]. split; [reflexivity|].
  split; [reflexivity|].
  cbn. matrix_eq.
Qed.

(** C5. Fusing the queue H(0), H(1), CNOT(0,1), X(0), X(1) gives exactly one
    fusion group, replaced by exactly one gate on the two qubits, whose
    unitary is kron(X,X) @ CNOT @ kron(H,H): with exact arithmetic the
    matrix of entries plus and minus h * h written out below, for every
    value [h] of 1/sqrt(2); and in binary64, with h = 1 / sqrt(2) as numpy
    computes it, the same matrix entry for entry.  More generally one-qubit
    gates before and after a two-qubit gate fuse to the product of the
    matrices in reverse order of application.  For two gates on the same
    qubits the unitary of [g1 @ g2] is the product of their matrices:
    its entries are the rows of the first times the columns of the second. *)
Theorem fused_gate_calculation (h : R)
    (a0 a1 b0 b1 m : matrix R) (n0 n1 n2 n3 n4 : string)
    (na nb : string) (qs : list nat) (n : nat) (U1 U2 : matrix R) :
  dim 2 2 a0 -> dim 2 2 a1 -> dim 4 4 m -> dim 2 2 b0 -> dim 2 2 b1 ->
  dim n n U1 -> dim n n U2 ->
  (exists group gate,
     from_queue [H h 0; H h 1; CNOT 0 1; X 0; X 1] = [group]
     /\ calculate group = [gate]
     /\ qubits gate = [0; 1]%nat
     /\ unitary gate
        = [[ (h * h)%S;  (h * h)%S; (- (h * h))%S; (- (h * h))%S];
           [ (h * h)%S; (- (h * h))%S; (- (h * h))%S;  (h * h)%S];
           [ (h * h)%S; (- (h * h))%S;  (h * h)%S; (- (h * h))%S];
           [ (h * h)%S;  (h * h)%S;  (h * h)%S;  (h * h)%S]]
     /\ unitary gate = mmul (mmul (kron mX mX) mCNOT) (kron (mH h) (mH h)))
  /\ (exists group gate,
        from_queue [H float_h 0; H float_h 1; CNOT 0 1; X 0; X 1] = [group]
        /\ calculate group = [gate]
        /\ qubits gate = [0; 1]%nat
        /\ unitary gate
           = (let hh := PrimFloat.mul float_h float_h in
              let mm := PrimFloat.opp hh in
              [[hh; hh; mm; mm]; [hh; mm; mm; hh];
               [hh; mm; hh; mm]; [hh; hh; hh; hh]])
        /\ unitary gate
           = mmul (mmul (kron mX mX) mCNOT) (kron (mH float_h) (mH float_h)))
  /\ (exists group gate,
        from_queue [MatrixGate n0 [0%nat] a0; MatrixGate n1 [1%nat] a1;
                    MatrixGate n2 [0; 1]%nat m;
                    MatrixGate n3 [0%nat] b0; MatrixGate n4 [1%nat] b1]
        = [group]
        /\ calculate group = [gate]
        /\ qubits gate = [0; 1]%nat
        /\ unitary gate = mmul (mmul (kron b0 b1) m) (kron a0 a1))
  /\ (exists g,
        matmul_gate (MatrixGate na qs U1) (MatrixGate nb qs U2) = Ok g
        /\ qubits g = qs
        /\ unitary g = mmul U1 U2
        /\ dim n n (unitary g)
        /\ forall i j, (i < n)%nat -> (j < n)%nat ->
             entry (unitary g) i j
             = sum_list (fun k => (entry U1 i k * entry U2 k j)%S) (seq 0 n)).
Proof.
  intros Ha0 Ha1 Hm Hb0 Hb1 HU1 HU2.
  split; [|split; [|split]].
  - do 2 eexists. split; [reflexivity|]. split; [reflexivity|].
    split; [reflexivity|]. split; cbn; matrix_eq.
  - do 2 eexists. split; [reflexivity|]. split; [reflexivity|].
    split; [reflexivity|]. split; vm_compute; reflexivity.
  - now apply fused_layers.
  - eexists. unfold matmul_gate.
    rewrite (proj2 (qubits_eqb_eq qs qs) eq_refl).
    split; [reflexivity|]. split; [reflexivity|]. split; [reflexivity|].
    cbn [unitary Unitary]. split; [now apply dim_mmul|].
    intros i j Hi Hj.
    destruct (dim_ncols n U1 HU1) as [_ Hr1].
    destruct (dim_ncols n U2 HU2) as [Hc2 Hr2].
    rewrite entry_mmul by lia. now rewrite Hr2.
Qed.

End FusedGate.

(** The gates of the test with [h = 1], which keeps the entries whole
    numbers, and the product X @ H. *)
Lemma fused_gate_calculation_witness :
  (exists group gate,
     from_queue [H 1 0; H 1 1; CNOT 0 1; X 0; X 1] = [group]
     /\ calculate group = [gate]
     /\ qubits gate = [0; 1]%nat
     /\ unitary gate
        = [[ (1 * 1)%S;  (1 * 1)%S; (- (1 * 1))%S; (- (1 * 1))%S];
           [ (1 * 1)%S; (- (1 * 1))%S; (- (1 * 1))%S;  (1 * 1)%S];
           [ (1 * 1)%S; (- (1 * 1))%S;  (1 * 1)%S; (- (1 * 1))%S];
           [ (1 * 1)%S;  (1 * 1)%S;  (1 * 1)%S;  (1 * 1)%S]]
     /\ unitary gate = mmul (mmul (kron mX mX) mCNOT) (kron (mH 1) (mH 1)))
  /\ (exists group gate,
        from_queue [H float_h 0; H float_h 1; CNOT 0 1; X 0; X 1] = [group]
        /\ calculate group = [gate]
        /\ qubits gate = [0; 1]%nat
        /\ unitary gate
           = (let hh := PrimFloat.mul float_h float_h in
              let mm := PrimFloat.opp hh in
              [[hh; hh; mm; mm]; [hh; mm; mm; hh];
               [hh; mm; hh; mm]; [hh; hh; hh; hh]])
        /\ unitary gate
           = mmul (mmul (kron mX mX) mCNOT) (kron (mH float_h) (mH float_h)))
  /\ (exists group gate,
        from_queue [MatrixGate "H" [0%nat] (mH 1); MatrixGate "H" [1%nat] (mH 1);
                    MatrixGate "CNOT" [0; 1]%nat mCNOT;
                    MatrixGate "X" [0%nat] mX; MatrixGate "X" [1%nat] mX]
        = [group]
        /\ calculate group = [gate]
        /\ qubits gate = [0; 1]%nat
        /\ unitary gate = mmul (mmul (kron mX mX) mCNOT) (kron (mH 1) (mH 1)))
  /\ (exists g,
        matmul_gate (MatrixGate "X" [0%nat] mX) (MatrixGate "H" [0%nat] (mH 1))
        = Ok g
        /\ qubits g = [0%nat]
        /\ unitary g = mmul mX (mH 1)
        /\ dim 2 2 (unitary g)
        /\ forall i j, (i < 2)%nat -> (j < 2)%nat ->
             entry (unitary g) i j
             = sum_list (fun k => (entry mX i k * entry (mH 1) k j)%S)
                        (seq 0 2)).
Proof.
  apply (fused_gate_calculation (R := Z) 1
           (mH 1) (mH 1) mX mX mCNOT "H" "H" "CNOT" "X" "X"
           "X" "H" [0%nat] 2 mX (mH 1));
    repeat constructor.
Defined.

(** ** Merging a pair of gates *)



Section Pairs.

Context {R : Type} {SR : Scalar R}.


End Pairs.


(** The two pairs of test_two_qubit_gate_multiplication: on the same
    qubits one group and a product, on three qubits two groups and
    NotImplementedError. *)
Example merging_pairs_of_the_test :
  length (from_queue (R := Z) [fSim 1 0 1 0 1; SWAP 0 1]) = 1%nat
  /\ product_unitary (fSim 1 0 1 0 1) (SWAP 0 1)
     = Ok [[1; 0; 0; 0]; [0; 0; 1; 0]; [0; 1; 0; 0]; [0; 0; 0; 1]]
  /\ length (from_queue (R := Z) [fSim 1 0 1 0 1; SWAP 0 2]) = 2%nat
  /\ product_unitary (fSim 1 0 1 0 1) (SWAP 0 2) = Raise NotImplementedError.
Proof. repeat split. Qed.

(** ** Rounding *)

(** In binary64 a product of matrices applied at once and its factors
    applied in turn need not give the same entries: here they differ in
    the last bits.  A fused gate is such a product, so the states of a
    fused and of an unfused circuit agree up to rounding only, which is
    what the tests check with [assert_allclose]. *)
Example rounding_separates_product_from_factors :
  mmul (mmul float_rotation float_rotation) float_ones
  <> mmul float_rotation (mmul float_rotation float_ones).
Proof. vm_compute. discriminate. Qed.

(** * Further properties of the PyTorch backend *)

(** ** The sampling functions beyond bit matrices *)

Lemma binary_value_bits_of_mod n v :
  binary_value (bits_of n v) = v mod 2 ^ Z.of_nat n.
Proof.
  pose proof (Z.pow_pos_nonneg 2 (Z.of_nat n)) as Hpos.
  assert (Hlow : bits_of n v = bits_of n (v mod 2 ^ Z.of_nat n)).
  { rewrite (Z.div_mod v (2 ^ Z.of_nat n)) at 1 by lia.
    now rewrite (Z.mul_comm (2 ^ Z.of_nat n)), bits_of_add_high. }
  rewrite Hlow. apply binary_value_bits_of. apply Z.mod_pos_bound. lia.
Qed.

(** X1.  [samples_to_binary] writes every int32 value, negative ones too, as
    [nqubits] digits that are 0 or 1. *)
Theorem samples_to_binary_gives_bits
    (sd : torch_dtype) (nqubits : Z) (x : cast_input Z ndarray) (d : list Z) :
  0 <= nqubits <= 31 ->
  Forall (fun z => - 2 ^ 31 <= z < 2 ^ 31) d ->
  holds x [length d] d ->
  exists bits,
    samples_to_binary sd x nqubits
    = Ok (mkTensor t_int32 [length d; Z.to_nat nqubits] bits)
    /\ length bits = (length d * Z.to_nat nqubits)%nat
    /\ Forall is_bit bits.
Proof.
  intros Hq Hd Hx.
  assert (Hn : (Z.to_nat nqubits <= 31)%nat) by lia.
  exists (flat_map (bits_of (Z.to_nat nqubits)) d).
  split; [|split].
  - rewrite <- (Z2Nat.id nqubits) at 1 by lia.
    now apply samples_to_binary_vector.
  - clear. induction d as [|v d IH]; [reflexivity|].
    cbn [flat_map length]. rewrite length_app, length_bits_of, IH. lia.
  - rewrite flat_map_concat_map. apply Forall_concat, Forall_map.
    apply Forall_forall. intros v _. apply bits_of_is_bit.
Qed.

Lemma samples_to_binary_gives_bits_witness :
  exists bits,
    samples_to_binary t_complex128
      (XOther (mkArray [3%nat] [5; -1; 0])) 2
    = Ok (mkTensor t_int32 [3%nat; 2%nat] bits)
    /\ length bits = 6%nat
    /\ Forall is_bit bits.
Proof.
  apply (samples_to_binary_gives_bits t_complex128 2
           (XOther (mkArray [3%nat] [5; -1; 0])) [5; -1; 0]).
  - lia.
  - repeat constructor; lia.
  - split; reflexivity.
Defined.

(** X2.  Converting int32 values to [nqubits] bits and back keeps their low
    [nqubits] bits: the round trip is reduction modulo 2^nqubits. *)
Theorem samples_roundtrip_keeps_low_bits
    (sd : torch_dtype) (nqubits : Z) (x : cast_input Z ndarray) (d : list Z) :
  0 <= nqubits <= 31 ->
  Forall (fun z => - 2 ^ 31 <= z < 2 ^ 31) d ->
  holds x [length d] d ->
  (let! bin := samples_to_binary sd x nqubits in
   samples_to_decimal sd (XTensor bin) nqubits)
  = Ok (mkTensor t_int32 [length d] (map (fun v => v mod 2 ^ nqubits) d)).
Proof.
  intros Hq Hd Hx.
  remember (Z.to_nat nqubits) as n eqn:En.
  assert (Hn : (n <= 31)%nat) by lia.
  assert (Eq : nqubits = Z.of_nat n) by lia.
  rewrite Eq in *. clear Eq En Hq.
  rewrite (samples_to_binary_vector sd x n d Hn Hd Hx). cbn [bind].
  rewrite flat_map_concat_map.
  replace (length d) with (length (map (bits_of n) d)) at 1
    by apply length_map.
  rewrite (samples_to_decimal_rows sd _ n (map (bits_of n) d) Hn).
  - rewrite length_map, map_map. do 2 f_equal.
    apply map_ext. intros v. apply binary_value_bits_of_mod.
  - apply Forall_map, Forall_forall. intros v _.
    split; [apply length_bits_of|apply bits_of_is_bit].
  - cbn. split; reflexivity.
Qed.

Lemma samples_roundtrip_keeps_low_bits_witness :
  (let! bin := samples_to_binary t_complex128
                 (XOther (mkArray [3%nat] [5; -1; 9])) 3 in
   samples_to_decimal t_complex128 (XTensor bin) 3)
  = Ok (mkTensor t_int32 [3%nat] [5; 7; 1]).
Proof.
  apply (samples_roundtrip_keeps_low_bits t_complex128 3
           (XOther (mkArray [3%nat] [5; -1; 9])) [5; -1; 9]).
  - lia.
  - repeat constructor; lia.
  - split; reflexivity.
Defined.

Lemma arange_qrange_shape nqubits :
  t_shape (arange (nqubits - 1) (-1) (-1) t_int32) = [Z.to_nat nqubits]
  /\ t_dtype (arange (nqubits - 1) (-1) (-1) t_int32) = t_int32.
Proof.
  unfold arange. cbn [Z.ltb Z.compare t_shape t_dtype].
  replace ((nqubits - 1 - -1 - -1 - 1) / - -1) with nqubits
    by (change (- -1) with 1; rewrite Z.div_1_r; lia).
  split; reflexivity.
Qed.

(** X3.  A sample matrix whose number of columns is not [nqubits] is refused:
    the product with the column of weights raises RuntimeError. *)
Theorem samples_to_decimal_wrong_width
    (sd : torch_dtype) (nqubits : Z) (x : cast_input Z ndarray)
    (m k : nat) (data : list Z) :
  holds x [m; k] data ->
  Forall (fun z => - 2 ^ 31 <= z < 2 ^ 31) data ->
  k <> Z.to_nat nqubits ->
  samples_to_decimal sd x nqubits = Raise RuntimeError.
Proof.
  intros Hx Hd Hk. unfold samples_to_decimal.
  rewrite (cast_int32_holds sd x _ _ Hx Hd). cbn [bind].
  destruct (arange_qrange_shape nqubits) as [Hs Ht].
  unfold unsqueeze, rpow. cbn [t_shape t_dtype t_data]. rewrite Hs, Ht.
  cbn [length Nat.leb firstn skipn app bind].
  unfold matmul. cbn [t_shape t_dtype].
  apply Nat.eqb_neq in Hk. now rewrite Hk.
Qed.

Lemma samples_to_decimal_wrong_width_witness :
  samples_to_decimal t_complex128
    (XOther (mkArray [1%nat; 3%nat] [1; 0; 1])) 2
  = Raise RuntimeError.
Proof.
  apply (samples_to_decimal_wrong_width t_complex128 2
           (XOther (mkArray [1%nat; 3%nat] [1; 0; 1])) 1 3 [1; 0; 1]).
  - split; reflexivity.
  - repeat constructor; lia.
  - cbn. lia.
Defined.

(** X4.  On bit matrices of at most 31 columns [samples_to_decimal] is
    injective and its values lie in 0 .. 2^nqubits - 1: different
    outcomes never share a label. *)
Theorem samples_to_decimal_injective
    (sd : torch_dtype) (nqubits : Z)
    (x1 x2 : cast_input Z ndarray) (rows1 rows2 : list (list Z)) :
  0 <= nqubits <= 31 ->
  bit_rows (Z.to_nat nqubits) rows1 ->
  bit_rows (Z.to_nat nqubits) rows2 ->
  holds x1 [length rows1; Z.to_nat nqubits] (concat rows1) ->
  holds x2 [length rows2; Z.to_nat nqubits] (concat rows2) ->
  (exists dec,
     samples_to_decimal sd x1 nqubits = Ok dec
     /\ Forall (fun v => 0 <= v < 2 ^ nqubits) (t_data dec))
  /\ (samples_to_decimal sd x1 nqubits = samples_to_decimal sd x2 nqubits ->
      rows1 = rows2).
Proof.
  intros Hq Hr1 Hr2 Hx1 Hx2.
  remember (Z.to_nat nqubits) as n eqn:En.
  assert (Hn : (n <= 31)%nat) by lia.
  assert (Eq : nqubits = Z.of_nat n) by lia.
  rewrite Eq in *. clear Eq En Hq.
  rewrite (samples_to_decimal_rows sd x1 n rows1 Hn Hr1 Hx1).
  rewrite (samples_to_decimal_rows sd x2 n rows2 Hn Hr2 Hx2).
  assert (Hback : forall rows, bit_rows n rows ->
                    map (bits_of n) (map binary_value rows) = rows).
  { intros rows Hrows. rewrite map_map. rewrite <- (map_id rows) at 2.
    apply map_ext_in. intros r Hr.
    unfold bit_rows in Hrows. rewrite Forall_forall in Hrows.
    destruct (Hrows r Hr) as [<- Hbits]. now apply bits_of_binary_value. }
  split.
  - eexists. split; [reflexivity|]. cbn [t_data].
    apply Forall_map. eapply Forall_impl; [|exact Hr1].
    intros r [Hl Hbits]. pose proof (binary_value_range r Hbits).
    now rewrite Hl in *.
  - intros [= _ E]. rewrite <- (Hback rows1 Hr1), <- (Hback rows2 Hr2).
    now rewrite E.
Qed.

Lemma samples_to_decimal_injective_witness :
  let x1 := XOther (mkArray [2%nat; 2%nat] [1; 0;  0; 1]) in
  let x2 := XTensor (mkTensor t_int64 [2%nat; 2%nat] [1; 0;  1; 1]) in
  (exists dec,
     samples_to_decimal t_complex128 x1 2 = Ok dec
     /\ Forall (fun v => 0 <= v < 2 ^ 2) (t_data dec))
  /\ (samples_to_decimal t_complex128 x1 2 = samples_to_decimal t_complex128 x2 2 ->
      [[1; 0]; [0; 1]] = [[1; 0]; [1; 1]]).
Proof.
  intros x1 x2.
  apply (samples_to_decimal_injective t_complex128 2 x1 x2
           [[1; 0]; [0; 1]] [[1; 0]; [1; 1]]).
  - lia.
  - bit_rows_tac.
  - bit_rows_tac.
  - split; reflexivity.
  - split; reflexivity.
Defined.

(** ** [cast]: dtype names and repeated casts *)

Lemma getitem_missing {V : Type} (d : list (string * V)) key :
  ~ In key (map fst d) -> getitem d key = Raise KeyError.
Proof.
  induction d as [|[k v] d IH]; intros H; [reflexivity|].
  cbn [getitem]. destruct (String.eqb_spec k key) as [->|_].
  - exfalso. apply H. now left.
  - apply IH. intros Hin. apply H. now right.
Qed.

Lemma getitem_found {V : Type} (d : list (string * V)) key :
  In key (map fst d) -> exists v, getitem d key = Ok v.
Proof.
  induction d as [|[k v] d IH]; intros H; [destruct H|].
  cbn [getitem]. destruct (String.eqb_spec k key) as [->|Hne]; [eauto|].
  apply IH. destruct H as [H|H]; [contradiction|exact H].
Qed.

(** X5.  A dtype given by name (a string, a numpy dtype, or a Python class) is
    looked up in [torch_dtype_dict]: a name that is not one of its nine
    keys makes [cast] raise KeyError whatever the input is, while a name
    among the keys, [None] and any [torch.dtype] object are accepted. *)
Theorem cast_dtype_name_must_be_a_key
    {A O : Type}
    (convert : torch_dtype -> torch_dtype -> A -> A)
    (tensor_contents : cast_input A O -> torch_dtype -> result (list nat * list A))
    (self_dtype : torch_dtype)
    (x : cast_input A O) (copy : bool) (bad good : string) (d : torch_dtype) :
  ~ In bad (map fst torch_dtype_dict) ->
  In good (map fst torch_dtype_dict) ->
  cast convert tensor_contents self_dtype x (DStr bad) copy = Raise KeyError
  /\ cast convert tensor_contents self_dtype x (DPyType bad) copy = Raise KeyError
  /\ (exists d', resolve_dtype self_dtype (DStr good) = Ok d'
                 /\ resolve_dtype self_dtype (DPyType good) = Ok d')
  /\ resolve_dtype self_dtype (DTorch d) = Ok d
  /\ resolve_dtype self_dtype DNone = Ok self_dtype.
Proof.
  intros Hbad Hgood. unfold cast. cbn [resolve_dtype].
  rewrite (getitem_missing _ _ Hbad). cbn [bind].
  destruct (getitem_found _ _ Hgood) as [d' Hd'].
  repeat split; eauto.
Qed.

Lemma cast_dtype_name_must_be_a_key_witness :
  cast_Z t_complex128 (XTensor (mkTensor t_int64 [1%nat] [7])) (DStr "float16") false
    = Raise KeyError
  /\ cast_Z t_complex128 (XTensor (mkTensor t_int64 [1%nat] [7])) (DPyType "float16") false
    = Raise KeyError
  /\ (exists d', resolve_dtype t_complex128 (DStr "float") = Ok d'
                 /\ resolve_dtype t_complex128 (DPyType "float") = Ok d')
  /\ resolve_dtype t_complex128 (DTorch t_float16) = Ok t_float16
  /\ resolve_dtype t_complex128 DNone = Ok t_complex128.
Proof.
  apply (cast_dtype_name_must_be_a_key convert_Z tensor_contents_Z t_complex128
           (XTensor (mkTensor t_int64 [1%nat] [7])) false
           "float16" "float" t_float16).
  - cbn. intros H.
    repeat (destruct H as [H|H]; [discriminate H|]). exact H.
  - cbn. auto.
Defined.

Lemma cast_inv_resolve
    {A O : Type}
    (convert : torch_dtype -> torch_dtype -> A -> A)
    (tensor_contents : cast_input A O -> torch_dtype -> result (list nat * list A))
    (self_dtype : torch_dtype) x dtype copy r :
  cast convert tensor_contents self_dtype x dtype copy = Ok r ->
  exists d, resolve_dtype self_dtype dtype = Ok d.
Proof.
  unfold cast. destruct (resolve_dtype self_dtype dtype) as [d|e];
    [eauto|discriminate].
Qed.

(** X6.  Casting the result of a successful [cast] once more to the same dtype
    always gives a tensor of the requested dtype and of the same shape.
    For a single tensor or a non-tensor input the second cast changes
    nothing; only a list of tensors, which the first cast stacks without
    converting, can still be converted by the second. *)
Theorem cast_again_gives_requested_dtype
    {A O : Type}
    (convert : torch_dtype -> torch_dtype -> A -> A)
    (tensor_contents : cast_input A O -> torch_dtype -> result (list nat * list A))
    (self_dtype : torch_dtype)
    (x : cast_input A O) (dtype : dtype_arg) (d : torch_dtype)
    (copy copy' : bool) (r : Tensor A) :
  resolve_dtype self_dtype dtype = Ok d ->
  cast convert tensor_contents self_dtype x dtype copy = Ok r ->
  exists r',
    cast convert tensor_contents self_dtype (XTensor r) dtype copy' = Ok r'
    /\ t_dtype r' = d
    /\ t_shape r' = t_shape r
    /\ (match x with
        | XList l => forallb is_Tensor l = false
        | _ => True
        end -> r' = r).
Proof.
  intros Hd Hc. exists (to convert r d).
  split; [now apply cast_tensor|]. split; [apply t_dtype_to|].
  split.
  - unfold to. now destruct (dtype_eqb (t_dtype r) d).
  - intros Hx.
    assert (Hr : t_dtype r = d).
    { destruct x as [t|l|o].
      - rewrite (cast_tensor convert tensor_contents self_dtype t dtype d copy Hd)
          in Hc. injection Hc as <-. apply t_dtype_to.
      - rewrite (cast_non_tensor convert tensor_contents self_dtype
                   (XList l) dtype d copy Hd Hx) in Hc.
        now apply t_dtype_torch_tensor in Hc.
      - rewrite (cast_non_tensor convert tensor_contents self_dtype
                   (XOther o) dtype d copy Hd I) in Hc.
        now apply t_dtype_torch_tensor in Hc. }
    rewrite <- Hr. apply to_same_dtype.
Qed.

Lemma cast_again_gives_requested_dtype_witness :
  exists r',
    cast_Z t_complex128
      (XTensor (mkTensor t_int64 [2%nat; 1%nat] [300; 5])) (DStr "int32") true
    = Ok r'
    /\ t_dtype r' = t_int32
    /\ t_shape r' = [2%nat; 1%nat]
    /\ (forallb is_Tensor
          [inl (mkTensor t_int64 [1%nat] [300]);
           @inl (Tensor Z) ndarray (mkTensor t_int64 [1%nat] [5])] = false ->
        r' = mkTensor t_int64 [2%nat; 1%nat] [300; 5]).
Proof.
  apply (cast_again_gives_requested_dtype convert_Z tensor_contents_Z
           t_complex128
           (XList [inl (mkTensor t_int64 [1%nat] [300]);
                   inl (mkTensor t_int64 [1%nat] [5])])
           (DStr "int32") t_int32 false true
           (mkTensor t_int64 [2%nat; 1%nat] [300; 5])).
  - reflexivity.
  - reflexivity.
Defined.

(** ** [_append_zeros] *)

Section CollapseProperties.

Context {A : Type}.
Variable zero : A.

Lemma numel_app (a b : list nat) : numel (a ++ b) = (numel a * numel b)%nat.
Proof.
  induction a as [|x a IH]; cbn [app numel fold_right].
  - fold (numel b). lia.
  - fold (numel (a ++ b)). fold (numel a). rewrite IH. lia.
Qed.

Lemma numel_cons x (s : list nat) : numel (x :: s) = (x * numel s)%nat.
Proof. reflexivity. Qed.

Lemma numel_firstn_skipn q (s : list nat) :
  (numel (firstn q s) * numel (skipn q s))%nat = numel s.
Proof. now rewrite <- numel_app, firstn_skipn. Qed.

Lemma shape_eqb_refl s : shape_eqb s s = true.
Proof. unfold shape_eqb. now destruct (list_eq_dec Nat.eq_dec s s). Qed.

Lemma length_cat_data ka kb outer (a b : list A) :
  length a = (outer * ka)%nat -> length b = (outer * kb)%nat ->
  length (cat_data ka kb outer a b) = (outer * (ka + kb))%nat.
Proof.
  revert a b. induction outer as [|outer IH]; intros a b Ha Hb;
    [reflexivity|].
  cbn [cat_data]. rewrite !length_app, !length_firstn.
  rewrite IH by (rewrite length_skipn; lia). lia.
Qed.

Lemma filter_firstn_skipn (p : A -> bool) k (l : list A) :
  filter p (firstn k l) ++ filter p (skipn k l) = filter p l.
Proof. now rewrite <- filter_app, firstn_skipn. Qed.

Lemma filter_none (p : A -> bool) (l : list A) :
  Forall (fun x => p x = false) l -> filter p l = [].
Proof.
  induction 1 as [|x l Hx _ IH]; [reflexivity|].
  cbn [filter]. now rewrite Hx.
Qed.

Lemma Forall_firstn (P : A -> Prop) k (l : list A) :
  Forall P l -> Forall P (firstn k l).
Proof.
  intros H. rewrite <- (firstn_skipn k l) in H.
  now apply Forall_app in H.
Qed.

Lemma Forall_skipn (P : A -> Prop) k (l : list A) :
  Forall P l -> Forall P (skipn k l).
Proof.
  intros H. rewrite <- (firstn_skipn k l) in H.
  now apply Forall_app in H.
Qed.

Lemma filter_cat_data_zero_right (p : A -> bool) ka kb outer (a b : list A) :
  Forall (fun x => p x = false) b -> length a = (outer * ka)%nat ->
  filter p (cat_data ka kb outer a b) = filter p a.
Proof.
  revert a b. induction outer as [|outer IH]; intros a b Hb Ha.
  - destruct a; [reflexivity|discriminate].
  - cbn [cat_data]. rewrite !filter_app.
    rewrite (filter_none p (firstn kb b)) by now apply Forall_firstn.
    rewrite IH by (try apply Forall_skipn; try rewrite length_skipn;
                   (assumption || lia)).
    cbn [app]. apply filter_firstn_skipn.
Qed.

Lemma filter_cat_data_zero_left (p : A -> bool) ka kb outer (a b : list A) :
  Forall (fun x => p x = false) a -> length b = (outer * kb)%nat ->
  filter p (cat_data ka kb outer a b) = filter p b.
Proof.
  revert a b. induction outer as [|outer IH]; intros a b Ha Hb.
  - destruct b; [reflexivity|discriminate].
  - cbn [cat_data]. rewrite !filter_app.
    rewrite (filter_none p (firstn ka a)) by now apply Forall_firstn.
    rewrite IH by (try apply Forall_skipn; try rewrite length_skipn;
                   (assumption || lia)).
    cbn [app]. apply filter_firstn_skipn.
Qed.

Lemma nth_skipn_plus k i (l : list A) d :
  nth i (skipn k l) d = nth (k + i) l d.
Proof.
  revert l. induction k as [|k IH]; intros l; [reflexivity|].
  destruct l as [|x l]; [now destruct i|]. cbn [skipn Nat.add nth]. apply IH.
Qed.

Lemma nth_firstn_lt k i (l : list A) d :
  (i < k)%nat -> nth i (firstn k l) d = nth i l d.
Proof.
  revert i l. induction k as [|k IH]; intros i l Hi; [lia|].
  destruct l as [|x l]; [reflexivity|].
  destruct i as [|i]; [reflexivity|]. cbn [firstn nth]. apply IH. lia.
Qed.

(** Where the entries of the two tensors land in the joined tensor. *)
Lemma nth_cat_data ka kb outer (a b : list A) d o j :
  length a = (outer * ka)%nat -> length b = (outer * kb)%nat ->
  (o < outer)%nat ->
  ((j < ka)%nat ->
   nth (o * (ka + kb) + j) (cat_data ka kb outer a b) d = nth (o * ka + j) a d)
  /\ ((j < kb)%nat ->
      nth (o * (ka + kb) + ka + j) (cat_data ka kb outer a b) d
      = nth (o * kb + j) b d).
Proof.
  revert a b o. induction outer as [|outer IH]; intros a b o Ha Hb Ho; [lia|].
  cbn [cat_data].
  assert (La : length (firstn ka a) = ka) by (rewrite length_firstn; lia).
  assert (Lb : length (firstn kb b) = kb) by (rewrite length_firstn; lia).
  destruct o as [|o].
  - cbn [Nat.mul Nat.add]. split; intros Hj.
    + rewrite app_nth1 by lia. now apply nth_firstn_lt.
    + rewrite app_nth2 by lia. rewrite La.
      replace (ka + j - ka)%nat with j by lia.
      rewrite app_nth1 by lia. now apply nth_firstn_lt.
  - destruct (IH (skipn ka a) (skipn kb b) o) as [IHa IHb];
      try (rewrite length_skipn; lia); try lia.
    split; intros Hj.
    + rewrite app_nth2 by lia. rewrite app_nth2 by lia. rewrite La, Lb.
      replace (S o * (ka + kb) + j - ka - kb)%nat
        with (o * (ka + kb) + j)%nat by lia.
      rewrite (IHa Hj), nth_skipn_plus. f_equal. lia.
    + rewrite app_nth2 by lia. rewrite app_nth2 by lia. rewrite La, Lb.
      replace (S o * (ka + kb) + ka + j - ka - kb)%nat
        with (o * (ka + kb) + ka + j)%nat by lia.
      rewrite (IHb Hj), nth_skipn_plus. f_equal. lia.
Qed.

End CollapseProperties.

Section AppendZeros.

Context {A : Type}.
Variable zero : A.

Lemma firstn_exact {X : Type} (l1 l2 : list X) :
  firstn (length l1) (l1 ++ l2) = l1.
Proof.
  rewrite firstn_app, Nat.sub_diag, firstn_all. cbn [firstn].
  apply app_nil_r.
Qed.

Lemma skipn_exact {X : Type} (l1 l2 : list X) :
  skipn (length l1) (l1 ++ l2) = l2.
Proof.
  rewrite skipn_app, Nat.sub_diag, skipn_all. reflexivity.
Qed.

Lemma append_step_spec (state : Tensor A) q r :
  well_shaped state -> (q <= length (t_shape state))%nat ->
  let inner := numel (skipn q (t_shape state)) in
  let outer := numel (firstn q (t_shape state)) in
  append_step zero state q r
  = Ok (mkTensor (t_dtype state)
          (firstn q (t_shape state) ++ 2%nat :: skipn q (t_shape state))
          (if r
           then cat_data inner inner outer
                  (repeat zero (length (t_data state))) (t_data state)
           else cat_data inner inner outer
                  (t_data state) (repeat zero (length (t_data state))))).
Proof.
  intros Hw Hq inner outer. unfold append_step, torch_unsqueeze.
  apply Nat.leb_le in Hq. rewrite Hq. apply Nat.leb_le in Hq. cbn [bind].
  set (s := t_shape state) in *.
  assert (Lf : length (firstn q s) = q) by (rewrite length_firstn; lia).
  assert (Hfirst : firstn q (firstn q s ++ 1%nat :: skipn q s) = firstn q s).
  { rewrite <- Lf at 1. apply firstn_exact. }
  assert (Hskip : skipn q (firstn q s ++ 1%nat :: skipn q s)
                  = 1%nat :: skipn q s).
  { rewrite <- Lf at 1. apply skipn_exact. }
  assert (HskipS : skipn (S q) (firstn q s ++ 1%nat :: skipn q s) = skipn q s).
  { change (S q) with (1 + q)%nat. rewrite <- skipn_skipn, Hskip. reflexivity. }
  assert (Hnth : nth q (firstn q s ++ 1%nat :: skipn q s) 0%nat = 1%nat).
  { rewrite app_nth2 by lia. rewrite Lf, Nat.sub_diag. reflexivity. }
  assert (Hlen : Nat.leb (length (firstn q s ++ 1%nat :: skipn q s)) q = false).
  { apply Nat.leb_gt. rewrite length_app, Lf. cbn [length]. lia. }
  assert (Hprom : promote_types (t_dtype state) (t_dtype state) = t_dtype state).
  { unfold promote_types. now rewrite dtype_eqb_refl. }
  destruct r; unfold cat, zeros_like; cbn [t_shape t_dtype t_data];
    rewrite Hlen, !shape_eqb_refl, Nat.eqb_refl; cbn [andb];
    rewrite Hprom, Hfirst, Hskip, HskipS, Hnth, numel_cons, Nat.mul_1_l;
    reflexivity.
Qed.

Lemma append_zeros_cons (state : Tensor A) q qs r rs :
  _append_zeros zero state (q :: qs) (r :: rs)
  = (let! state' := append_step zero state q r in _append_zeros zero state' qs rs).
Proof.
  cbn [_append_zeros]. unfold append_step.
  destruct (torch_unsqueeze state q) as [s|e]; reflexivity.
Qed.

Lemma well_shaped_split (state : Tensor A) q :
  well_shaped state ->
  length (t_data state)
  = (numel (firstn q (t_shape state)) * numel (skipn q (t_shape state)))%nat.
Proof. intros Hw. rewrite numel_firstn_skipn. exact Hw. Qed.

Lemma Forall_repeat (P : A -> Prop) x k : P x -> Forall P (repeat x k).
Proof. intros H. induction k; cbn; auto. Qed.

(** What one round does to size and contents. *)
Lemma append_step_facts (nonzero : A -> bool) (state : Tensor A) q r :
  nonzero zero = false ->
  well_shaped state -> (q <= length (t_shape state))%nat ->
  exists state',
    append_step zero state q r = Ok state'
    /\ t_shape state'
       = firstn q (t_shape state) ++ 2%nat :: skipn q (t_shape state)
    /\ t_dtype state' = t_dtype state
    /\ well_shaped state'
    /\ length (t_data state') = (2 * length (t_data state))%nat
    /\ filter nonzero (t_data state') = filter nonzero (t_data state).
Proof.
  intros Hz Hw Hq. eexists. split; [now apply append_step_spec|].
  cbn [t_shape t_dtype t_data].
  pose proof (well_shaped_split state q Hw) as Hsplit.
  set (inner := numel (skipn q (t_shape state))) in *.
  set (outer := numel (firstn q (t_shape state))) in *.
  assert (Hlen : forall r : bool,
    length (if r
            then cat_data inner inner outer
                   (repeat zero (length (t_data state))) (t_data state)
            else cat_data inner inner outer
                   (t_data state) (repeat zero (length (t_data state))))
    = (2 * length (t_data state))%nat).
  { intros []; rewrite length_cat_data; rewrite ?repeat_length; lia. }
  split; [reflexivity|]. split; [reflexivity|]. split; [|split].
  - unfold well_shaped. cbn [t_shape t_data].
    rewrite Hlen, numel_app, numel_cons. fold inner outer. lia.
  - apply Hlen.
  - destruct r.
    + apply filter_cat_data_zero_left; [|exact Hsplit].
      now apply Forall_repeat.
    + apply filter_cat_data_zero_right; [|exact Hsplit].
      now apply Forall_repeat.
Qed.

Lemma nth_repeat_zero k m (d : A) :
  (k < m)%nat -> nth k (repeat zero m) d = zero.
Proof.
  revert k. induction m as [|m IH]; intros k Hk; [lia|].
  destruct k as [|k]; [reflexivity|]. cbn [repeat nth]. apply IH. lia.
Qed.

Lemma length_insert_axis q (shape : list nat) :
  (q <= length shape)%nat ->
  length (firstn q shape ++ 2%nat :: skipn q shape) = S (length shape).
Proof.
  intros Hq. rewrite length_app, length_firstn. cbn [length].
  rewrite length_skipn. lia.
Qed.

(** X8.  [_append_zeros], lines 207-215.  On a state with as many entries
    as its shape says, and with every axis index valid when its axis is
    inserted, the loop succeeds; it inserts one axis of size 2 per
    (qubit, result) pair, keeps the dtype, doubles the number of entries
    once per pair, and the entries that are not zero are those of the
    input state, in the same order: only zeros are added. *)
Theorem append_zeros_only_adds_zeros (nonzero : A -> bool)
    (qubits : list nat) (results : list bool) (state : Tensor A) :
  nonzero zero = false ->
  well_shaped state ->
  axes_in_range (length (t_shape state)) qubits results ->
  exists state',
    _append_zeros zero state qubits results = Ok state'
    /\ t_shape state' = grown_shape (t_shape state) qubits results
    /\ dimensions state'
       = (dimensions state + Nat.min (length qubits) (length results))%nat
    /\ t_dtype state' = t_dtype state
    /\ well_shaped state'
    /\ length (t_data state')
       = (2 ^ Nat.min (length qubits) (length results)
          * length (t_data state))%nat
    /\ filter nonzero (t_data state') = filter nonzero (t_data state).
Proof.
  intros Hz. revert results state.
  induction qubits as [|q qubits IH]; intros results state Hw Hr.
  - exists state. cbn [_append_zeros grown_shape length Nat.min Nat.pow].
    repeat (split; [reflexivity || assumption || lia|]). reflexivity.
  - destruct results as [|r results].
    + exists state. cbn [_append_zeros grown_shape length Nat.min Nat.pow].
      repeat (split; [reflexivity || assumption || lia|]). reflexivity.
    + destruct Hr as [Hq Hr].
      destruct (append_step_facts nonzero state q r Hz Hw Hq)
        as (s1 & E1 & Hs1 & Hd1 & Hw1 & Hl1 & Hf1).
      assert (Hrank : length (t_shape s1) = S (length (t_shape state))).
      { rewrite Hs1. now apply length_insert_axis. }
      rewrite <- Hrank in Hr.
      destruct (IH results s1 Hw1 Hr)
        as (s2 & E2 & Hs2 & Hn2 & Hd2 & Hw2 & Hl2 & Hf2).
      exists s2. rewrite append_zeros_cons, E1. cbn [bind].
      split; [exact E2|]. split; [|split; [|split; [|split; [|split]]]].
      * cbn [grown_shape]. rewrite <- Hs1. exact Hs2.
      * rewrite Hn2. unfold dimensions. rewrite Hrank.
        cbn [length Nat.min]. lia.
      * congruence.
      * exact Hw2.
      * rewrite Hl2, Hl1. cbn [length Nat.min].
        rewrite Nat.pow_succ_r'. lia.
      * congruence.
Qed.

(** X9.  [_append_zeros], lines 207-215.  One pair [(q, r)]: along the
    new axis [q] the half of index [r] holds the input state, entry for
    entry, and the other half holds zeros. *)
Theorem append_zeros_places_state (state : Tensor A) (q : nat) (r : bool)
    (d : A) (o i : nat) :
  well_shaped state -> (q <= length (t_shape state))%nat ->
  (o < numel (firstn q (t_shape state)))%nat ->
  (i < numel (skipn q (t_shape state)))%nat ->
  exists state',
    _append_zeros zero state [q] [r] = Ok state'
    /\ nth (o * (2 * numel (skipn q (t_shape state)))
            + (if r then numel (skipn q (t_shape state)) else 0) + i)
           (t_data state') d
       = nth (o * numel (skipn q (t_shape state)) + i) (t_data state) d
    /\ nth (o * (2 * numel (skipn q (t_shape state)))
            + (if r then 0 else numel (skipn q (t_shape state))) + i)
           (t_data state') d
       = zero.
Proof.
  intros Hw Hq Ho Hi.
  pose proof (well_shaped_split state q Hw) as Hsplit.
  eexists. rewrite append_zeros_cons, (append_step_spec state q r Hw Hq).
  cbn [bind _append_zeros]. split; [reflexivity|]. cbn [t_data].
  set (inner := numel (skipn q (t_shape state))) in *.
  set (outer := numel (firstn q (t_shape state))) in *.
  replace (2 * inner)%nat with (inner + inner)%nat by lia.
  assert (Hz : length (repeat zero (length (t_data state)))
               = (outer * inner)%nat) by now rewrite repeat_length.
  assert (Hin : (o * inner + i < length (t_data state))%nat) by nia.
  destruct r.
  - destruct (nth_cat_data inner inner outer
                (repeat zero (length (t_data state))) (t_data state)
                d o i Hz Hsplit Ho) as [Hleft Hright].
    split; [exact (Hright Hi)|].
    rewrite Nat.add_0_r, (Hleft Hi). now apply nth_repeat_zero.
  - destruct (nth_cat_data inner inner outer
                (t_data state) (repeat zero (length (t_data state)))
                d o i Hsplit Hz Ho) as [Hleft Hright].
    split; [rewrite Nat.add_0_r; exact (Hleft Hi)|].
    rewrite (Hright Hi). now apply nth_repeat_zero.
Qed.

(** X10.  [_append_zeros], lines 207-215.  The loop checks nothing
    itself: the first axis index beyond the rank the state has reached
    by then makes [unsqueeze] raise IndexError, after the earlier pairs
    were processed. *)
Theorem append_zeros_axis_out_of_range (state : Tensor A)
    (qs1 : list nat) (rs1 : list bool) (q : nat) (r : bool)
    (qs2 : list nat) (rs2 : list bool) :
  well_shaped state ->
  length qs1 = length rs1 ->
  axes_in_range (length (t_shape state)) qs1 rs1 ->
  (length (t_shape state) + length qs1 < q)%nat ->
  _append_zeros zero state (qs1 ++ q :: qs2) (rs1 ++ r :: rs2)
  = Raise IndexError.
Proof.
  revert rs1 state.
  induction qs1 as [|q1 qs1 IH]; intros [|r1 rs1] state Hw Hlen Hr Hq;
    try discriminate.
  - cbn [app _append_zeros length] in *. unfold torch_unsqueeze.
    replace (Nat.leb q (length (t_shape state))) with false
      by (symmetry; apply Nat.leb_gt; lia).
    reflexivity.
  - destruct Hr as [Hq1 Hr].
    destruct (append_step_facts (fun _ => false) state q1 r1
                eq_refl Hw Hq1) as (s1 & E1 & Hs1 & _ & Hw1 & _ & _).
    assert (Hrank : length (t_shape s1) = S (length (t_shape state))).
    { rewrite Hs1. now apply length_insert_axis. }
    cbn [app]. rewrite append_zeros_cons, E1. cbn [bind].
    apply IH.
    + exact Hw1.
    + cbn [length] in Hlen. lia.
    + rewrite Hrank. exact Hr.
    + rewrite Hrank. cbn [length] in Hq. lia.
Qed.

End AppendZeros.

Lemma append_zeros_only_adds_zeros_witness :
  exists state',
    _append_zeros 0 (mkTensor t_int32 [2%nat] [5; 7]) [0%nat; 2%nat]
                  [true; false] = Ok state'
    /\ t_shape state'
       = grown_shape [2%nat] [0%nat; 2%nat] [true; false]
    /\ dimensions state' = (1 + 2)%nat
    /\ t_dtype state' = t_int32
    /\ well_shaped state'
    /\ length (t_data state') = (2 ^ 2 * 2)%nat
    /\ filter (fun v => negb (v =? 0)) (t_data state') = [5; 7].
Proof.
  apply (append_zeros_only_adds_zeros 0 (fun v => negb (v =? 0))
           [0%nat; 2%nat] [true; false] (mkTensor t_int32 [2%nat] [5; 7])).
  - reflexivity.
  - reflexivity.
  - cbn. lia.
Defined.

Lemma append_zeros_places_state_witness :
  exists state',
    _append_zeros 0 (mkTensor t_int32 [2%nat; 2%nat] [1; 2; 3; 4])
                  [1%nat] [true] = Ok state'
    /\ nth (1 * (2 * 2) + 2 + 0) (t_data state') 9 = 3
    /\ nth (1 * (2 * 2) + 0 + 0) (t_data state') 9 = 0.
Proof.
  apply (append_zeros_places_state 0
           (mkTensor t_int32 [2%nat; 2%nat] [1; 2; 3; 4])
           1%nat true 9 1%nat 0%nat).
  - reflexivity.
  - cbn. lia.
  - cbn. lia.
  - cbn. lia.
Defined.

Lemma append_zeros_axis_out_of_range_witness :
  _append_zeros 0 (mkTensor t_int32 [2%nat] [5; 7])
                ([0%nat] ++ 3%nat :: []) ([true] ++ false :: [])
  = Raise IndexError.
Proof.
  apply (append_zeros_axis_out_of_range 0 (mkTensor t_int32 [2%nat] [5; 7])
           [0%nat] [true] 3%nat false [] []).
  - reflexivity.
  - reflexivity.
  - cbn. lia.
  - cbn. lia.
Defined.

(** ** The test configuration *)

Lemma str_split_not_nil sep s : str_split sep s <> [].
Proof.
  destruct s as [|c s]; cbn [str_split]; [discriminate|].
  destruct (Ascii.eqb c sep); [discriminate|].
  destruct (str_split sep s); discriminate.
Qed.

Lemma str_split_no_sep sep s :
  str_contains sep s = false -> str_split sep s = [s].
Proof.
  induction s as [|c s IH]; cbn [str_contains str_split]; [reflexivity|].
  intros H. apply orb_false_iff in H as [Hc Hs].
  rewrite Hc, (IH Hs). reflexivity.
Qed.

Lemma str_split_app sep a s :
  str_contains sep a = false ->
  str_split sep (a ++ String sep s) = a :: str_split sep s.
Proof.
  induction a as [|c a IH]; cbn [str_contains str_split String.append].
  - intros _. now rewrite Ascii.eqb_refl.
  - intros H. apply orb_false_iff in H as [Hc Ha].
    rewrite Hc, (IH Ha). reflexivity.
Qed.

Lemma str_contains_app sep a b :
  str_contains sep (a ++ b) = str_contains sep a || str_contains sep b.
Proof.
  induction a as [|c a IH]; cbn [str_contains String.append]; [reflexivity|].
  now rewrite IH, orb_assoc.
Qed.

Lemma str_contains_sep sep s : str_contains sep (String sep s) = true.
Proof. cbn [str_contains]. now rewrite Ascii.eqb_refl. Qed.

(** Joining the pieces with the separator gives the string back. *)
Lemma str_join_split sep s :
  String.concat (String sep EmptyString) (str_split sep s) = s.
Proof.
  induction s as [|c s IH]; [reflexivity|]. cbn [str_split].
  destruct (Ascii.eqb c sep) eqn:Hc.
  - apply Ascii.eqb_eq in Hc. subst c.
    pose proof (str_split_not_nil sep s) as Hn.
    destruct (str_split sep s) as [|piece pieces]; [contradiction|].
    cbn [String.concat String.append] in *. now rewrite IH.
  - pose proof (str_split_not_nil sep s) as Hn.
    destruct (str_split sep s) as [|piece pieces]; [contradiction|].
    destruct pieces as [|piece' pieces];
      cbn [String.concat String.append] in *; now rewrite IH.
Qed.

Lemma str_in_In x l : str_in x l = true <-> In x l.
Proof.
  unfold str_in. rewrite existsb_exists. split.
  - intros (y & Hy & E). apply String.eqb_eq in E. now subst.
  - intros H. exists x. split; [exact H|apply String.eqb_refl].
Qed.

(** X11.  [pytest_runtest_setup], lines 48-55.  A test is left to run exactly
    when it carries neither of the marks [darwin] and [linux], or carries
    the mark of the platform it runs on; so an unmarked test runs on every
    platform, a test marked for one of the two platforms is skipped on
    every other platform, also on one that is neither, and marks other
    than these two change nothing. *)
Theorem runtest_setup_runs_unmarked_and_own_platform
    (marks : list string) (plat : string) :
  (pytest_runtest_setup marks plat = None
   <-> (~ In "darwin" marks /\ ~ In "linux" marks)
       \/ ((plat = "darwin" \/ plat = "linux") /\ In plat marks))
  /\ (forall other, other <> "darwin" -> other <> "linux" ->
      pytest_runtest_setup (other :: marks) plat
      = pytest_runtest_setup marks plat).
Proof.
  split.
  - unfold pytest_runtest_setup. cbn [filter].
    destruct (str_in "darwin" marks) eqn:Hd;
      destruct (str_in "linux" marks) eqn:Hl;
      cbn [length Nat.eqb negb andb str_in existsb orb];
      rewrite ?orb_false_r;
      repeat match goal with
      | H : str_in _ _ = true |- _ => apply str_in_In in H
      | H : str_in _ _ = false |- _ =>
          apply not_true_iff_false in H; rewrite str_in_In in H
      end;
      try (destruct (String.eqb_spec plat "darwin") as [Ed|Nd]);
      try (destruct (String.eqb_spec plat "linux") as [El|Nl]);
      cbn [orb negb];
      (split;
       [intros H; try discriminate H;
        first [left; split; assumption
              |right; split; [tauto|];
               first [rewrite Ed; assumption|rewrite El; assumption]]
       |intros H; try reflexivity; exfalso;
        destruct H as [[H1 H2]|[[H1|H1] H2]];
        try contradiction; try congruence;
        rewrite H1 in H2; contradiction]).
  - intros other Hd Hl. unfold pytest_runtest_setup. cbn [filter].
    cbn [str_in existsb].
    destruct (String.eqb_spec "darwin" other) as [E|_]; [congruence|].
    destruct (String.eqb_spec "linux" other) as [E|_]; [congruence|].
    reflexivity.
Qed.

Section ConftestProperties.

Variable backend : Type.
Variable construct_backend : string -> option string -> attempt backend.
Variable supports_multigpu : backend -> bool.

Lemma collect_backends_acc names : forall av0 mg0 av mg,
  collect_backends backend construct_backend supports_multigpu names av0 mg0
  = Ok (av, mg) ->
  av = av0 ++ filter (constructed backend construct_backend) names
  /\ mg = mg0
          ++ filter (constructed_multigpu backend construct_backend
                       supports_multigpu) names.
Proof.
  induction names as [|n names IH]; intros av0 mg0 av mg H;
    cbn [collect_backends filter] in *.
  - injection H as <- <-. now rewrite !app_nil_r.
  - unfold constructed at 1, constructed_multigpu at 1.
    destruct (get_backend backend construct_backend n) as [b| |e];
      [|now apply IH|discriminate].
    apply IH in H as [-> ->].
    destruct (supports_multigpu b); rewrite <- ?app_assoc; now split.
Qed.

Lemma collect_backends_total names : forall av0 mg0,
  (forall n, In n names ->
     forall e, get_backend backend construct_backend n <> Uncaught e) ->
  exists av mg,
    collect_backends backend construct_backend supports_multigpu names av0 mg0
    = Ok (av, mg).
Proof.
  induction names as [|n names IH]; intros av0 mg0 H; cbn [collect_backends].
  - now exists av0, mg0.
  - pose proof (H n (or_introl eq_refl)) as Hn.
    destruct (get_backend backend construct_backend n) as [b| |e].
    + apply IH. intros m Hm. apply H. now right.
    + apply IH. intros m Hm. apply H. now right.
    + now destruct (Hn e).
Qed.

Lemma constructed_multigpu_constructed n :
  constructed_multigpu backend construct_backend supports_multigpu n = true ->
  constructed backend construct_backend n = true.
Proof.
  unfold constructed, constructed_multigpu.
  now destruct (get_backend backend construct_backend n).
Qed.

Lemma collect_backends_lists (names av mg : list string) :
  collect_backends backend construct_backend supports_multigpu names [] []
  = Ok (av, mg) ->
  av = filter (constructed backend construct_backend) names
  /\ mg = filter (constructed_multigpu backend construct_backend
                    supports_multigpu) av
  /\ incl mg av /\ incl av names.
Proof.
  intros H. apply collect_backends_acc in H as [-> ->].
  cbn [app]. split; [reflexivity|]. split; [|split].
  - induction names as [|n l IH]; [reflexivity|]. cbn [filter].
    destruct (constructed backend construct_backend n) eqn:Hc; cbn [filter].
    + rewrite <- IH. reflexivity.
    + destruct (constructed_multigpu backend construct_backend
                  supports_multigpu n) eqn:Hm; [|exact IH].
      apply constructed_multigpu_constructed in Hm. congruence.
  - intros n Hn. apply filter_In in Hn as [Hn Hm]. apply filter_In.
    split; [exact Hn|now apply constructed_multigpu_constructed].
  - intros n Hn. now apply filter_In in Hn as [Hn _].
Qed.

(** X12.  [get_backend], lines 28-33.  A name without a hyphen is passed on
    with no platform; a name with exactly one hyphen is cut there into
    name and platform, either of which may be empty; a name with two or
    more hyphens raises ValueError and no backend is constructed. *)
Theorem get_backend_splits_at_one_hyphen (name platform rest : string) :
  str_contains hyphen name = false ->
  str_contains hyphen platform = false ->
  get_backend backend construct_backend name = construct_backend name None
  /\ get_backend backend construct_backend (name ++ "-" ++ platform)
     = construct_backend name (Some platform)
  /\ get_backend backend construct_backend
       (name ++ "-" ++ platform ++ "-" ++ rest)
     = Uncaught ValueError.
Proof.
  intros Hn Hp. unfold get_backend. split; [|split].
  - now rewrite Hn.
  - change ("-" ++ platform)%string with (String hyphen platform).
    rewrite str_contains_app, str_contains_sep, orb_true_r.
    rewrite (str_split_app hyphen name platform Hn).
    now rewrite (str_split_no_sep hyphen platform Hp).
  - change ("-" ++ platform ++ "-" ++ rest)%string
      with (String hyphen (platform ++ String hyphen rest)).
    rewrite str_contains_app, str_contains_sep, orb_true_r.
    rewrite (str_split_app hyphen name _ Hn).
    rewrite (str_split_app hyphen platform rest Hp).
    pose proof (str_split_not_nil hyphen rest) as Hr.
    destruct (str_split hyphen rest); [contradiction|reflexivity].
Qed.

(** X13.  The loop of lines 36-45.  When the loop ends without an exception,
    AVAILABLE_BACKENDS holds, in the order of the names, exactly the names
    for which [get_backend] returned a backend, and MULTIGPU_BACKENDS
    those among them whose backend supports multi-GPU; so every multi-GPU
    backend is an available one.  Import errors never end the loop: it
    fails only on another exception. *)
Theorem available_backends_are_the_constructed_ones (names : list string) :
  (forall av mg,
     collect_backends backend construct_backend supports_multigpu names [] []
     = Ok (av, mg) ->
     av = filter (constructed backend construct_backend) names
     /\ mg = filter (constructed_multigpu backend construct_backend
                       supports_multigpu) av
     /\ incl mg av /\ incl av names)
  /\ ((forall n, In n names ->
         forall e, get_backend backend construct_backend n <> Uncaught e) ->
      exists av mg,
        collect_backends backend construct_backend supports_multigpu names [] []
        = Ok (av, mg)).
Proof.
  split.
  - intros av mg H. now apply collect_backends_lists.
  - intros H. now apply collect_backends_total.
Qed.

(** X14.  Lines 22 and 36-45.  No name of BACKENDS has more than one hyphen:
    unless [construct_backend] itself raises something else than an
    import error, importing the module builds the two lists. *)
Theorem module_backends_are_built :
  (forall name platform e, construct_backend name platform <> Uncaught e) ->
  exists av mg,
    module_backends backend construct_backend supports_multigpu = Ok (av, mg)
    /\ incl mg av /\ incl av BACKENDS.
Proof.
  intros H.
  destruct (collect_backends_total BACKENDS [] []) as (av & mg & E).
  - intros n Hn e.
    cbn [BACKENDS In] in Hn.
    destruct Hn as [<-|[<-|[<-|[<-|[]]]]]; apply H.
  - exists av, mg. split; [exact E|].
    destruct (collect_backends_lists BACKENDS av mg E)
      as (_ & _ & Hmg & Hav).
    now split.
Qed.

End ConftestProperties.

Lemma in_multigpu_config (mg : list string) bk acc :
  In (bk, acc) (multigpu_config mg) ->
  exists a, acc = Some a /\ In a ACCELERATORS /\ In bk mg.
Proof.
  unfold multigpu_config. intros H.
  apply in_flat_map in H as (a & Ha & H).
  apply in_map_iff in H as (b & E & Hb).
  injection E as <- <-. now exists a.
Qed.

(** X15.  [pytest_generate_tests], lines 73-99, with the lists of lines 36-45.
    Whatever the module and the fixtures of a test, it is parametrized
    only with backends that [get_backend] could construct, and with a
    multi-GPU configuration only for a backend that supports multi-GPU;
    a backend without configuration is any available one. *)
Theorem tests_run_on_constructed_backends
    (backend : Type)
    (construct_backend : string -> option string -> attempt backend)
    (supports_multigpu : backend -> bool)
    (names av mg : list string)
    (module_name : string) (fixturenames : list string) (skip_parallel : bool)
    (calls : list parametrize) :
  collect_backends backend construct_backend supports_multigpu names [] []
  = Ok (av, mg) ->
  pytest_generate_tests av mg module_name fixturenames skip_parallel
  = Parametrized calls ->
  Forall (fun call =>
    match call with
    | ByBackendAndAccelerators config =>
        forall bk acc, In (bk, acc) config ->
          constructed backend construct_backend bk = true
          /\ (forall a, acc = Some a ->
                In a ACCELERATORS
                /\ constructed_multigpu backend construct_backend
                     supports_multigpu bk = true)
    | ByBackend l =>
        forall bk, In bk l -> constructed backend construct_backend bk = true
    | ByAccelerators l => l = ACCELERATORS
    | BySkipParallel l => l = [skip_parallel]
    end) calls.
Proof.
  intros Hc Hg.
  destruct (collect_backends_lists backend construct_backend
              supports_multigpu names av mg Hc) as (Hav & Hmg & Hincl & _).
  assert (Av : forall bk, In bk av ->
                 constructed backend construct_backend bk = true).
  { intros bk Hbk. rewrite Hav in Hbk. now apply filter_In in Hbk. }
  assert (Mg : forall bk, In bk mg ->
                 constructed_multigpu backend construct_backend
                   supports_multigpu bk = true).
  { intros bk Hbk. rewrite Hmg in Hbk. now apply filter_In in Hbk. }
  assert (Cfg : forall bk acc, In (bk, acc) (multigpu_config mg) ->
    constructed backend construct_backend bk = true
    /\ (forall a, acc = Some a ->
          In a ACCELERATORS
          /\ constructed_multigpu backend construct_backend
               supports_multigpu bk = true)).
  { intros bk acc H. apply in_multigpu_config in H as (a & -> & Ha & Hbk).
    split; [apply Av, Hincl, Hbk|].
    intros a' E. injection E as <-. split; [exact Ha|now apply Mg]. }
  unfold pytest_generate_tests in Hg.
  destruct (str_in module_name INACTIVE_TESTS); [discriminate|].
  destruct (String.eqb module_name "qibo.tests.test_models_qgan"
            && negb (str_in "tensorflow" av)); [discriminate|].
  injection Hg as <-. apply Forall_app. split.
  - destruct (String.eqb module_name
                "qibo.tests.test_models_distcircuit_execution").
    + constructor; [exact Cfg|constructor].
    + destruct (str_in "backend_name" fixturenames).
      * destruct (str_in "accelerators" fixturenames).
        -- constructor; [|constructor]. intros bk acc H.
           apply in_app_or in H as [H|H]; [|now apply Cfg].
           apply in_map_iff in H as (b & E & Hb). injection E as <- <-.
           split; [now apply Av|discriminate].
        -- constructor; [exact Av|constructor].
      * destruct (str_in "accelerators" fixturenames).
        -- constructor; [reflexivity|constructor].
        -- constructor.
  - destruct (str_in "skip_parallel" fixturenames).
    + constructor; [reflexivity|constructor].
    + constructor.
Qed.

Lemma get_backend_splits_at_one_hyphen_witness :
  get_backend _ example_construct_backend "qibojit"
  = example_construct_backend "qibojit" None
  /\ get_backend _ example_construct_backend "qibojit-cupy"
     = example_construct_backend "qibojit" (Some "cupy")
  /\ get_backend _ example_construct_backend "qibojit-cupy-cuquantum"
     = Uncaught ValueError.
Proof.
  apply (get_backend_splits_at_one_hyphen _ example_construct_backend
           "qibojit" "cupy" "cuquantum").
  - reflexivity.
  - reflexivity.
Defined.

Lemma module_backends_are_built_witness :
  exists av mg,
    module_backends _ example_construct_backend example_supports_multigpu
    = Ok (av, mg)
    /\ incl mg av /\ incl av BACKENDS.
Proof.
  apply (module_backends_are_built _ example_construct_backend
           example_supports_multigpu).
  intros name [platform|] e; unfold example_construct_backend.
  - destruct (String.eqb platform "cupy"); discriminate.
  - destruct (String.eqb name "numpy"); discriminate.
Defined.

Lemma tests_run_on_constructed_backends_witness :
  Forall (fun call =>
    match call with
    | ByBackendAndAccelerators config =>
        forall bk acc, In (bk, acc) config ->
          constructed _ example_construct_backend bk = true
          /\ (forall a, acc = Some a ->
                In a ACCELERATORS
                /\ constructed_multigpu _ example_construct_backend
                     example_supports_multigpu bk = true)
    | ByBackend l =>
        forall bk, In bk l -> constructed _ example_construct_backend bk = true
    | ByAccelerators l => l = ACCELERATORS
    | BySkipParallel l => l = [false]
    end) example_calls.
Proof.
  apply (tests_run_on_constructed_backends _ example_construct_backend
           example_supports_multigpu BACKENDS
           ["numpy"; "qibojit-cupy"] ["qibojit-cupy"]
           "qibo.tests.test_fusion" ["backend_name"; "accelerators"] false).
  - reflexivity.
  - reflexivity.
Defined.

(** ** The circuits the tests build *)

Lemma In_range_1 a b q : In q (range a b 1) <-> a <= q < b.
Proof.
  unfold range. rewrite in_map_iff. split.
  - intros (k & <- & Hk). apply in_seq in Hk.
    replace ((b - a + 1 - 1) / 1) with (b - a) in Hk
      by (rewrite Z.div_1_r; lia).
    lia.
  - intros H. exists (Z.to_nat (q - a)). split; [lia|].
    apply in_seq. rewrite Z.div_1_r. lia.
Qed.

Lemma In_range_2 a b q :
  In q (range a b 2) <-> a <= q < b /\ (q - a) mod 2 = 0.
Proof.
  unfold range. rewrite in_map_iff. split.
  - intros (k & <- & Hk). apply in_seq in Hk.
    assert (Z.of_nat k < (b - a + 2 - 1) / 2) by lia.
    split; [|replace (a + 2 * Z.of_nat k - a) with (Z.of_nat k * 2) by lia;
             apply Z.mod_mul; lia].
    Z.div_mod_to_equations. lia.
  - intros [H Hm]. exists (Z.to_nat ((q - a) / 2)). split.
    + Z.div_mod_to_equations. lia.
    + apply in_seq. Z.div_mod_to_equations. lia.
Qed.

Lemma length_range_1 n : length (range 0 n 1) = Z.to_nat n.
Proof.
  unfold range. rewrite length_map, length_seq, Z.div_1_r. f_equal. lia.
Qed.

Lemma acts_within_iff {angle : Type} nqubits (g : gate_call angle) :
  acts_within nqubits g = true
  <-> forall q, In q (call_qubits g) -> 0 <= q < nqubits.
Proof.
  unfold acts_within. rewrite forallb_forall.
  split; intros H q Hq; specialize (H q Hq); lia.
Qed.

Lemma odd_mod_2 n : Z.odd n = true <-> n mod 2 = 1.
Proof.
  rewrite Zmod_odd. destruct (Z.odd n); split; intros H; (reflexivity || discriminate).
Qed.

Section ErrorMitigationCircuit.

Context {angle : Type}.
Variables theta_hz half_pi theta_hx minus_half_pi theta_zz : angle.

(** X16.  [get_circuit], lines 31-50 of
    [tests/test_models_error_mitigation.py], for at least one qubit.  The
    circuit is created, and every gate given to it acts on qubits of the
    circuit exactly when the number of qubits is odd: for an even number
    of qubits the second layer of entangling gates, over
    [range(1, nqubits, 2)], ends with a CNOT whose target is the qubit
    [nqubits], one beyond the last. *)
Theorem get_circuit_fits_odd_sizes (nqubits : Z) :
  0 < nqubits ->
  exists gates,
    get_circuit theta_hz half_pi theta_hx minus_half_pi theta_zz nqubits
    = Ok gates
    /\ (forallb (acts_within nqubits) gates = true
        <-> Z.odd nqubits = true)
    /\ (Z.odd nqubits = false ->
        In (mk_call "CNOT" [nqubits - 1; nqubits] None) gates).
Proof.
  intros Hpos. unfold get_circuit, Circuit.
  replace (nqubits <? 1) with false by (symmetry; apply Z.ltb_ge; lia).
  cbn [bind]. eexists. split; [reflexivity|].
  match goal with
  | |- (forallb _ ?g = true <-> _) /\ _ => set (gates := g)
  end.
  assert (Hbad : Z.odd nqubits = false ->
    In (mk_call "CNOT" [nqubits - 1; nqubits] None) gates).
  { intros Hodd. unfold gates.
    do 8 (apply in_or_app; right). apply in_or_app; left.
    apply in_map_iff. exists (nqubits - 1). split.
    - do 3 f_equal. lia.
    - apply In_range_2. split; [|].
      + assert (nqubits <> 1) by (intros ->; discriminate). lia.
      + assert (Hm : nqubits mod 2 <> 1)
          by (intros E; apply odd_mod_2 in E; congruence).
        Z.div_mod_to_equations. lia. }
  split; [|exact Hbad]. split.
  - intros H. destruct (Z.odd nqubits) eqn:Hodd; [reflexivity|].
    rewrite forallb_forall in H.
    specialize (H _ (Hbad eq_refl)).
    pose proof (proj1 (acts_within_iff _ _) H nqubits) as Hq.
    cbn [call_qubits In] in Hq. lia.
  - intros H. apply forallb_forall. intros g Hg. apply acts_within_iff.
    assert (Hodd : nqubits mod 2 = 1) by now apply odd_mod_2.
    unfold gates in Hg.
    repeat (apply in_app_or in Hg as [Hg|Hg]);
      try (apply in_map_iff in Hg as (q0 & <- & Hq0);
           cbn [call_qubits In];
           first [apply In_range_1 in Hq0 | apply In_range_2 in Hq0];
           intros q Hq;
           (destruct Hq as [<-|[<-|[]]] || destruct Hq as [<-|[]]);
           (lia || (Z.div_mod_to_equations; lia))).
    destruct Hg as [<-|[]]. cbn [call_qubits]. intros q Hq.
    now apply In_range_1 in Hq.
Qed.

End ErrorMitigationCircuit.

Lemma get_circuit_fits_odd_sizes_witness :
  exists gates,
    get_circuit 1 2 3 4 5 2 = Ok gates
    /\ (forallb (acts_within 2) gates = true <-> Z.odd 2 = true)
    /\ (Z.odd 2 = false -> In (mk_call "CNOT" [2 - 1; 2] None) gates).
Proof.
  apply (get_circuit_fits_odd_sizes 1 2 3 4 5 2). lia.
Defined.

Section VariationalCircuit.

Context {angle : Type}.

Lemma angles_of_app (g1 g2 : list (gate_call angle)) :
  angles_of (g1 ++ g2) = angles_of g1 ++ angles_of g2.
Proof. apply flat_map_app. Qed.

Lemma angles_of_cz (qs : list Z) (f : Z -> list Z) :
  angles_of (map (fun i => @mk_call angle "CZ" (f i) None) qs) = [].
Proof. induction qs as [|q qs IH]; [reflexivity|exact IH]. Qed.

(** The rotations of one generator take one angle each, in order. *)
Lemma ry_gates_spec (qubits : list Z) : forall theta_iter : list angle,
  (length qubits <= length theta_iter)%nat ->
  exists gates,
    ry_gates qubits theta_iter
    = Built (gates, skipn (length qubits) theta_iter)
    /\ angles_of gates = firstn (length qubits) theta_iter
    /\ Forall (fun g => exists i, In i qubits /\ call_qubits g = [i]) gates.
Proof.
  induction qubits as [|i qubits IH]; intros theta_iter Hlen.
  - exists []. repeat split. constructor.
  - destruct theta_iter as [|theta theta_iter]; [cbn [length] in Hlen; lia|].
    destruct (IH theta_iter) as (gates & E & Ha & Hq);
      [cbn [length] in Hlen; lia|].
    exists (mk_call "RY" [i] (Some theta) :: gates).
    cbn [ry_gates next]. rewrite E. split; [reflexivity|]. split.
    + cbn [length firstn]. rewrite <- Ha. reflexivity.
    + constructor.
      * exists i. split; [now left|reflexivity].
      * eapply Forall_impl; [|exact Hq].
        intros g (j & Hj & Eg). exists j. split; [now right|exact Eg].
Qed.

Lemma ry_gates_exhausted (qubits : list Z) : forall theta_iter : list angle,
  (length theta_iter < length qubits)%nat ->
  ry_gates qubits theta_iter = Exhausted.
Proof.
  induction qubits as [|i qubits IH]; intros theta_iter Hlen;
    [cbn [length] in Hlen; lia|].
  destruct theta_iter as [|theta theta_iter]; [reflexivity|].
  cbn [ry_gates next]. rewrite IH; [reflexivity|].
  cbn [length] in Hlen. lia.
Qed.

(** Neighbouring qubits are never equal, so these gates are built. *)
Lemma cz_gates_spec (qubits : list Z) :
  @cz_gates angle qubits
  = Ok (map (fun i => mk_call "CZ" [i; i + 1] None) qubits).
Proof.
  induction qubits as [|i qubits IH]; [reflexivity|].
  cbn [cz_gates map]. unfold CZ_gate.
  replace (i =? i + 1) with false by (symmetry; apply Z.eqb_neq; lia).
  cbn [bind]. now rewrite IH.
Qed.

Lemma valid_ry nqubits (gates : list (gate_call angle)) :
  Forall (fun g => exists i, In i (range 0 nqubits 1) /\ call_qubits g = [i])
         gates ->
  Forall (valid_gate nqubits) gates.
Proof.
  intros H. eapply Forall_impl; [|exact H].
  intros g (i & Hi & E). apply In_range_1 in Hi. unfold valid_gate.
  rewrite E. split.
  - constructor; [intros []|constructor].
  - constructor; [lia|constructor].
Qed.

Lemma valid_cz nqubits start stop :
  0 <= start -> stop < nqubits ->
  Forall (valid_gate nqubits)
    (map (fun i => @mk_call angle "CZ" [i; i + 1] None) (range start stop 2)).
Proof.
  intros Hs Hn. apply Forall_forall. intros g Hg.
  apply in_map_iff in Hg as (i & <- & Hi). apply In_range_2 in Hi.
  unfold valid_gate. cbn [call_qubits]. split.
  - constructor; [intros [H|[]]; lia|]. constructor; [intros []|constructor].
  - constructor; [lia|]. constructor; [lia|constructor].
Qed.

Lemma variational_layer_spec nqubits (theta_iter : list angle) :
  2 <= nqubits ->
  (2 * Z.to_nat nqubits <= length theta_iter)%nat ->
  exists layer,
    variational_layer nqubits theta_iter
    = Built (layer, skipn (2 * Z.to_nat nqubits) theta_iter)
    /\ angles_of layer = firstn (2 * Z.to_nat nqubits) theta_iter
    /\ Forall (valid_gate nqubits) layer.
Proof.
  intros Hn Hlen. unfold variational_layer.
  set (n := Z.to_nat nqubits) in *.
  destruct (ry_gates_spec (range 0 nqubits 1) theta_iter)
    as (ry1 & E1 & A1 & Q1); [rewrite length_range_1; lia|].
  rewrite length_range_1 in E1, A1. fold n in E1, A1. rewrite E1.
  destruct (ry_gates_spec (range 0 nqubits 1) (skipn n theta_iter))
    as (ry2 & E2 & A2 & Q2);
    [rewrite length_range_1, length_skipn; lia|].
  rewrite length_range_1 in E2, A2. fold n in E2, A2. rewrite E2.
  rewrite !cz_gates_spec. unfold CZ_gate.
  replace (0 =? nqubits - 1) with false by (symmetry; apply Z.eqb_neq; lia).
  cbn [of_result].
  eexists. split; [|split].
  - rewrite skipn_skipn. do 2 f_equal. f_equal. lia.
  - rewrite !angles_of_app, !angles_of_cz, A1, A2. cbn [angles_of flat_map
      call_theta app]. rewrite !app_nil_r.
    replace (2 * n)%nat with (n + n)%nat by lia.
    rewrite <- (firstn_skipn n (firstn (n + n) theta_iter)).
    rewrite firstn_firstn, Nat.min_l by lia.
    f_equal. rewrite skipn_firstn_comm. f_equal. lia.
  - repeat (apply Forall_app; split).
    + now apply valid_ry.
    + apply valid_cz; lia.
    + now apply valid_ry.
    + apply valid_cz; lia.
    + constructor; [|constructor]. unfold valid_gate. cbn [call_qubits].
      split.
      * constructor; [intros [H|[]]; lia|].
        constructor; [intros []|constructor].
      * constructor; [lia|]. constructor; [lia|constructor].
Qed.

Lemma variational_circuit_layers nlayers nqubits (theta : list angle) :
  1 <= nqubits ->
  variational_circuit nlayers nqubits theta
  = variational_layers nlayers nqubits theta.
Proof.
  intros Hn. unfold variational_circuit, Circuit.
  now replace (nqubits <? 1) with false by (symmetry; apply Z.ltb_ge; lia).
Qed.

(** X17.  [test_circuit_fuse_variational_layer], lines 105-114 of
    [test_fusion.py], for at least two qubits.  With
    [2 * nlayers * nqubits] angles the iterator is never found exhausted
    and no constructor refuses its qubits: the circuit is built and the
    iterator is used up; the angles of the gates, in the order of the
    gates, are the angles of [theta], so each is used once; and every
    gate acts on distinct qubits of the circuit. *)
Theorem variational_circuit_uses_every_angle (nlayers : nat) (nqubits : Z)
    (theta : list angle) :
  2 <= nqubits ->
  length theta = (2 * nlayers * Z.to_nat nqubits)%nat ->
  exists gates,
    variational_circuit nlayers nqubits theta = Built (gates, [])
    /\ angles_of gates = theta
    /\ Forall (valid_gate nqubits) gates.
Proof.
  intros Hn. rewrite variational_circuit_layers by lia. revert theta.
  induction nlayers as [|nlayers IH]; intros theta Hlen.
  - destruct theta; [|discriminate]. exists []. repeat split. constructor.
  - destruct (variational_layer_spec nqubits theta Hn) as (layer & E & A & V);
      [lia|].
    destruct (IH (skipn (2 * Z.to_nat nqubits) theta))
      as (gates & E' & A' & V'); [rewrite length_skipn; lia|].
    exists (layer ++ gates). cbn [variational_layers]. rewrite E, E'.
    split; [reflexivity|]. split.
    + rewrite angles_of_app, A, A'. apply firstn_skipn.
    + apply Forall_app. now split.
Qed.

(** X18.  The same lines, for at least two qubits, with too few angles:
    [next] finds the iterator exhausted and no circuit is built. *)
Theorem variational_circuit_needs_every_angle (nlayers : nat) (nqubits : Z)
    (theta : list angle) :
  2 <= nqubits ->
  (length theta < 2 * nlayers * Z.to_nat nqubits)%nat ->
  variational_circuit nlayers nqubits theta = Exhausted.
Proof.
  intros Hn. rewrite variational_circuit_layers by lia. revert theta.
  induction nlayers as [|nlayers IH]; intros theta Hlen; [lia|].
  cbn [variational_layers].
  destruct (Nat.le_gt_cases (2 * Z.to_nat nqubits) (length theta)) as [Hle|Hgt].
  - destruct (variational_layer_spec nqubits theta Hn Hle) as (layer & E & _).
    rewrite E, IH; [reflexivity|]. rewrite length_skipn. lia.
  - unfold variational_layer.
    destruct (Nat.le_gt_cases (Z.to_nat nqubits) (length theta)) as [Hle|Hlt].
    + destruct (ry_gates_spec (range 0 nqubits 1) theta)
        as (ry1 & E1 & _); [rewrite length_range_1; lia|].
      rewrite E1, cz_gates_spec. cbn [of_result].
      rewrite ry_gates_exhausted; [reflexivity|].
      rewrite length_range_1, length_skipn. lia.
    + rewrite ry_gates_exhausted; [reflexivity|].
      rewrite length_range_1. lia.
Qed.

(** X19.  The same lines below two qubits.  Without a qubit the circuit
    itself is refused; with one qubit the first round takes two angles
    and then ends at [gates.CZ(0, 0)]: with the [2 * nlayers] angles of
    the test both raise ValueError and no circuit is built. *)
Theorem variational_circuit_refuses_one_qubit (nlayers : nat) (nqubits : Z)
    (theta : list angle) :
  nqubits <= 1 ->
  (0 < nlayers)%nat ->
  length theta = (2 * nlayers * Z.to_nat nqubits)%nat ->
  variational_circuit nlayers nqubits theta = Refused ValueError.
Proof.
  intros Hn Hl Hlen. unfold variational_circuit, Circuit.
  destruct (Z.ltb_spec nqubits 1) as [Hlt|Hge]; [reflexivity|].
  assert (nqubits = 1) as -> by lia.
  destruct nlayers as [|nlayers]; [lia|].
  destruct theta as [|t1 [|t2 theta]]; cbn [length] in Hlen;
    [cbn in Hlen; lia|cbn in Hlen; lia|].
  reflexivity.
Qed.

End VariationalCircuit.

Lemma variational_circuit_uses_every_angle_witness :
  exists gates,
    variational_circuit 1 2 [10; 20; 30; 40] = Built (gates, [])
    /\ angles_of gates = [10; 20; 30; 40]
    /\ Forall (valid_gate 2) gates.
Proof.
  apply (variational_circuit_uses_every_angle 1 2 [10; 20; 30; 40]).
  - lia.
  - reflexivity.
Defined.

Lemma variational_circuit_needs_every_angle_witness :
  variational_circuit 1 2 [10; 20; 30] = Exhausted.
Proof.
  apply (variational_circuit_needs_every_angle 1 2 [10; 20; 30]).
  - lia.
  - cbn. lia.
Defined.

Lemma variational_circuit_refuses_one_qubit_witness :
  variational_circuit 2 1 [10; 20; 30; 40] = Refused ValueError.
Proof.
  apply (variational_circuit_refuses_one_qubit 2 1 [10; 20; 30; 40]).
  - lia.
  - lia.
  - reflexivity.
Defined.
